(** * SpargeAttn build configuration: a shallow embedding of [setup.py]
      and [spas_sage_attn/win_compat.py].

    The script validates the CUDA toolchain, turns [TORCH_CUDA_ARCH_LIST]
    into [-gencode] flags, discovers the [.cu] sources, assembles the two
    extension targets, applies the Windows override and hands the result
    to [setup].

    Conventions of the embedding.
    - A Python [str] is a [string]; every character stands for one code
      point below 256.
    - Python lists and dicts that the script mutates or passes around are
      objects of a heap, addressed by location; a list display allocates.
    - The script runs in a small state-and-exception monad [M]: the state
      is the heap together with what was printed.
    - What the script reads from outside (the file system, the process
      environment, [CUDA_HOME], [sys.platform], the output of [nvcc]) is a
      [World]. Paths follow [pathlib.PurePosixPath].
    - [packaging.version] is an interface, [Packaging]. *)

From stdpp Require Import gmap strings list pretty.
From Stdlib Require Import Ascii String ZArith Lia.

Local Open Scope string_scope.
Local Open Scope list_scope.
Local Open Scope Z_scope.
Local Open Scope nat_scope.

(* ===================================================================== *)
(** ** Python strings *)
(* ===================================================================== *)

Definition nonempty (s : string) : bool :=
  match s with EmptyString => false | String _ _ => true end.

(** [s.replace(old, new)] for a one-character [old]. *)
Fixpoint replace_char (old : ascii) (new : string) (s : string) : string :=
  match s with
  | EmptyString => EmptyString
  | String c r =>
      if Ascii.eqb c old then new +:+ replace_char old new r
      else String c (replace_char old new r)
  end.

(** Cutting a string at every character that satisfies [P]; the pieces
    between two cuts are kept even when they are empty. *)
Fixpoint split_by (P : ascii → bool) (s : string) : list string :=
  match s with
  | EmptyString => [EmptyString]
  | String c r =>
      if P c then EmptyString :: split_by P r
      else match split_by P r with
           | h :: t => String c h :: t
           | [] => [String c EmptyString]
           end
  end.

(** [s.split(sep)] for a one-character [sep]. *)
Definition split (sep : ascii) (s : string) : list string :=
  split_by (Ascii.eqb sep) s.

(** [c.isspace()] on the code points below 256. *)
Definition isspace (c : ascii) : bool :=
  let n := nat_of_ascii c in
  ((9 <=? n) && (n <=? 13)) || ((28 <=? n) && (n <=? 32))
  || (n =? 133) || (n =? 160).

(** [s.split()]: the maximal runs of characters that are not whitespace. *)
Definition split_ws (s : string) : list string :=
  List.filter nonempty (split_by isspace s).

(** [s.endswith(suffix)]. *)
Definition endswith (suffix s : string) : bool :=
  (String.length suffix <=? String.length s)
  && String.eqb
       (substring (String.length s - String.length suffix)
                  (String.length suffix) s)
       suffix.

(** [s.startswith(prefix)]. *)
Definition startswith (prefix s : string) : bool := String.prefix prefix s.

(* ===================================================================== *)
(** ** Exceptions, heap and the script monad *)
(* ===================================================================== *)

Inductive exn : Type :=
| RuntimeError (msg : string)
| IndexError
| InvalidVersion (text : string)
| CalledProcessError (cmd : string)
| FileNotFoundError (path : string)
| IsADirectoryError (path : string)
| KeyError (key : string)
| TypeError.

Inductive result (A : Type) : Type :=
| Ok (a : A)
| Raise (e : exn).
Arguments Ok {A} a.
Arguments Raise {A} e.

Definition loc := nat.

Inductive obj : Type :=
| OList (items : list string)
| ODict (fields : gmap string loc).

Record state : Type := mkState {
  heap : list obj;
  stdout : list string
}.

Definition init_state : state := {| heap := []; stdout := [] |}.

Definition M (A : Type) : Type := state → result A * state.

Definition ret {A} (a : A) : M A := λ st, (Ok a, st).

Definition bind {A B} (m : M A) (k : A → M B) : M B :=
  λ st, match m st with
        | (Ok a, st') => k a st'
        | (Raise e, st') => (Raise e, st')
        end.

Definition raise {A} (e : exn) : M A := λ st, (Raise e, st).

#[global] Instance M_ret : MRet M := @ret.
#[global] Instance M_bind : MBind M := λ A B k m, bind m k.

(** [for x in l: body(x)] *)
Fixpoint for_each {A} (l : list A) (body : A → M unit) : M unit :=
  match l with
  | [] => ret tt
  | x :: r => body x ;; for_each r body
  end.

(** A list display or [[]]: a new list object. *)
Definition new_list (items : list string) : M loc :=
  λ st, (Ok (List.length (heap st)),
         {| heap := heap st ++ [OList items]; stdout := stdout st |}).

(** A dict display: a new dict object. *)
Definition new_dict (fields : gmap string loc) : M loc :=
  λ st, (Ok (List.length (heap st)),
         {| heap := heap st ++ [ODict fields]; stdout := stdout st |}).

Definition read_list (l : loc) : M (list string) :=
  λ st, match heap st !! l with
        | Some (OList items) => (Ok items, st)
        | _ => (Raise TypeError, st)
        end.

Definition read_dict (l : loc) : M (gmap string loc) :=
  λ st, match heap st !! l with
        | Some (ODict fields) => (Ok fields, st)
        | _ => (Raise TypeError, st)
        end.

(** [d[key]] *)
Definition dict_get (d : gmap string loc) (key : string) : M loc :=
  match d !! key with
  | Some l => ret l
  | None => raise (KeyError key)
  end.

(** [l.extend(more)]: the object at [l] is updated in place. *)
Definition list_extend (l : loc) (more : list string) : M unit :=
  λ st, match heap st !! l with
        | Some (OList items) =>
            (Ok tt, {| heap := <[l := OList (items ++ more)]> (heap st);
                       stdout := stdout st |})
        | _ => (Raise TypeError, st)
        end.

Definition print (line : string) : M unit :=
  λ st, (Ok tt, {| heap := heap st; stdout := stdout st ++ [line] |}).

(** [l[i]], negative indices counting from the end. *)
Definition getitem (l : list string) (i : Z) : M string :=
  let n := Z.of_nat (List.length l) in
  let j := (if i <? 0 then i + n else i)%Z in
  if ((j <? 0) || (n <=? j))%Z then raise IndexError
  else match l !! Z.to_nat j with
       | Some x => ret x
       | None => raise IndexError
       end.

(* ===================================================================== *)
(** ** Architecture flags: [get_arch_flags] *)
(* ===================================================================== *)

Definition SUPPORTED_ARCHS : gset string := {[ "8.0"; "8.6"; "8.9"; "9.0" ]}.
Definition PROJECT_NAME : string := "spas_sage_attn".
Definition VERSION : string := "0.1.0".

Definition supported (arch : string) : bool :=
  bool_decide (arch ∈ SUPPORTED_ARCHS).

Definition gencode (arch : string) : list string :=
  let num := replace_char "." "" arch in
  ["-gencode"; "arch=compute_" +:+ num +:+ ",code=sm_" +:+ num].

Definition warning (arch : string) : string :=
  "Warning: Unsupported architecture " +:+ arch +:+ " will be ignored".

(** The value of [compute_capabilities]. *)
Definition compute_capabilities (environ : gmap string string) : list string :=
  split ";" (replace_char " " ";" (default "" (environ !! "TORCH_CUDA_ARCH_LIST"))).

(** The body of the loop of [get_arch_flags]. *)
Definition arch_step (arch_flags : loc) (arch : string) : M unit :=
  if negb (nonempty arch) then ret tt
  else if supported arch then list_extend arch_flags (gencode arch)
  else print (warning arch).

Definition get_arch_flags (environ : gmap string string) : M loc :=
  arch_flags ← new_list [];
  for_each (compute_capabilities environ) (arch_step arch_flags);;
  ret arch_flags.

(* ===================================================================== *)
(** ** The file system and [pathlib] paths *)
(* ===================================================================== *)

(** What a directory entry is. A symbolic link carries what it resolves
    to; [Dangling] is a link whose target is missing; [Special] is a fifo,
    socket or device, with what reading it returns. The entries of a
    directory are in the order in which [os.scandir] lists them.
    Permissions are not part of the model: every entry can be listed and
    examined. *)
#[local] Set Warnings "-register-all".
Inductive node : Type :=
| File (content : string)
| Dir (entries : list (string * node))
| Symlink (target : node)
| Dangling
| Special (data : string).
#[local] Set Warnings "register-all".

Fixpoint follow (n : node) : node :=
  match n with
  | Symlink t => follow t
  | _ => n
  end.

Definition is_file (n : node) : bool :=
  match follow n with File _ => true | _ => false end.

Definition is_dir (n : node) : bool :=
  match follow n with Dir _ => true | _ => false end.

Definition node_exists (n : node) : bool :=
  match follow n with Dangling => false | _ => true end.

Fixpoint lookup_entry (name : string) (es : list (string * node)) : option node :=
  match es with
  | [] => None
  | (nm, c) :: r => if String.eqb nm name then Some c else lookup_entry name r
  end.

(** Walking down from a directory along plain names; the links met on the
    way are followed, the last entry is returned as it is. *)
Fixpoint walk (n : node) (names : list string) : option node :=
  match names with
  | [] => Some n
  | nm :: r =>
      match follow n with
      | Dir es =>
          match lookup_entry nm es with
          | Some c => walk c r
          | None => None
          end
      | _ => None
      end
  end.

(** A [PurePosixPath]: its root ([""], ["/"] or ["//"]) and its parts. *)
Record Path : Type := mkPath {
  root : string;
  parts : list string
}.

Definition is_part (s : string) : bool :=
  nonempty s && negb (String.eqb s ".").

(** [Path(s)] *)
Definition parse_path (s : string) : Path :=
  {| root := if startswith "///" s then "/"
             else if startswith "//" s then "//"
             else if startswith "/" s then "/"
             else "";
     parts := List.filter is_part (split "/" s) |}.

(** [str(p)] *)
Definition str (p : Path) : string :=
  match root p, parts p with
  | EmptyString, [] => "."
  | r, ps => r +:+ String.concat "/" ps
  end.

(** [p / name] for a plain [name] (no separator, neither ["."] nor empty). *)
Definition joinpath (p : Path) (name : string) : Path :=
  {| root := root p; parts := parts p ++ [name] |}.

(** [p.name] *)
Definition name (p : Path) : string := List.last (parts p) "".

(* ===================================================================== *)
(** ** The world the script runs in *)
(* ===================================================================== *)

Record World : Type := mkWorld {
  (** [torch.utils.cpp_extension.CUDA_HOME] *)
  CUDA_HOME : option string;
  (** the working directory, as a tree *)
  cwd : node;
  (** what an absolute path, or one with a [".."] part, resolves to *)
  outside : string → option node;
  (** the output of [subprocess.check_output([cmd, "--version"], text=True)],
      [None] when the call raises *)
  nvcc_query : string → option string;
  (** [os.environ] *)
  environ : gmap string string;
  (** [sys.platform] *)
  sys_platform : string
}.

Definition inside (p : Path) : bool :=
  negb (nonempty (root p)) && forallb (λ s, negb (String.eqb s "..")) (parts p).

Definition resolve (w : World) (p : Path) : option node :=
  if inside p then walk (cwd w) (parts p) else outside w (str p).

(** [p.exists()] *)
Definition path_exists (w : World) (p : Path) : bool :=
  match resolve w p with
  | Some n => node_exists n
  | None => false
  end.

(* ===================================================================== *)
(** ** Source discovery: [collect_sources] *)
(* ===================================================================== *)

(** The entries of one directory whose name matches ["*" + suffix]. *)
Definition select (suffix : string) (p : Path) (es : list (string * node))
  : list (Path * node) :=
  map (λ e, (joinpath p e.1, e.2))
      (List.filter (λ e : string * node, endswith suffix e.1) es).

(** The recursive scan below a directory: the matching entries of the
    directory itself, then the scan of each of its subdirectories in
    turn. A link to a directory is listed like any other entry and is not
    entered. *)
Fixpoint rglob_node (suffix : string) (p : Path) (n : node) {struct n}
  : list (Path * node) :=
  match n with
  | Dir es =>
      select suffix p es ++
      (fix subdirs (l : list (string * node)) : list (Path * node) :=
         match l with
         | [] => []
         | e :: r => rglob_node suffix (joinpath p e.1) e.2 ++ subdirs r
         end) es
  | _ => []
  end.

(** [p.rglob("*" + suffix)]: nothing when [p] is not a directory. *)
Definition rglob (w : World) (p : Path) (suffix : string) : list (Path * node) :=
  match resolve w p with
  | Some n =>
      match follow n with
      | Dir es => rglob_node suffix p (Dir es)
      | _ => []
      end
  | None => []
  end.

(** The list comprehension of [collect_sources] for one root. *)
Definition root_sources (w : World) (src_dir : string) : list string :=
  let base_path := parse_path src_dir in
  map (λ f : Path * node, str f.1)
      (List.filter (λ f : Path * node,
                      is_file f.2 && negb (startswith "." (name f.1)))
                   (rglob w base_path ".cu")).

Definition collect_sources (w : World) (src_dirs : list string) : M loc :=
  sources ← new_list [];
  for_each src_dirs (λ src_dir, list_extend sources (root_sources w src_dir));;
  ret sources.

(* ===================================================================== *)
(** ** Toolchain validation: [validate_cuda_installation] *)
(* ===================================================================== *)

(** What the script uses of [packaging.version]: [parse] (which raises
    [InvalidVersion] on a text that is no version), the order on versions,
    how a version prints, and the constant [Version("12.0")]. *)
Class Packaging : Type := {
  Version : Type;
  parse : string → option Version;
  version_lt : Version → Version → bool;
  version_text : Version → string;
  MIN_CUDA_VERSION : Version;
  parse_min : parse "12.0" = Some MIN_CUDA_VERSION;
  version_lt_irrefl : ∀ v, version_lt v v = false
}.

(** [subprocess.check_output([cmd, "--version"], text=True)] *)
Definition check_output (w : World) (cmd : string) : M string :=
  match nvcc_query w cmd with
  | Some out => ret out
  | None => raise (CalledProcessError cmd)
  end.

(** [open(path).read()] *)
Definition open_read (w : World) (path : string) : M string :=
  match resolve w (parse_path path) with
  | None => raise (FileNotFoundError path)
  | Some n =>
      match follow n with
      | File content => ret content
      | Special data => ret data
      | Dir _ => raise (IsADirectoryError path)
      | _ => raise (FileNotFoundError path)
      end
  end.

Section Script.
Context {PKG : Packaging}.

(** [parse(text)] *)
Definition parse_version (text : string) : M Version :=
  match parse text with
  | Some v => ret v
  | None => raise (InvalidVersion text)
  end.

(** [nvcc_version.split()[-2].split(",")[0]] *)
Definition version_token (nvcc_version : string) : M string :=
  field ← getitem (split_ws nvcc_version) (-2);
  getitem (split "," field) 0.

Definition validate_cuda_installation (w : World) : M unit :=
  match CUDA_HOME w with
  | None => raise (RuntimeError "CUDA_HOME not found. CUDA 12.0+ required")
  | Some home =>
      let nvcc_path := joinpath (joinpath (parse_path home) "bin") "nvcc" in
      if negb (path_exists w nvcc_path)
      then raise (RuntimeError ("nvcc not found at " +:+ str nvcc_path))
      else
        nvcc_version ← check_output w (str nvcc_path);
        version_str ← version_token nvcc_version;
        cuda_version ← parse_version version_str;
        if version_lt cuda_version MIN_CUDA_VERSION
        then raise (RuntimeError ("Requires CUDA " +:+ version_text MIN_CUDA_VERSION
                                  +:+ "+, found " +:+ version_text cuda_version))
        else ret tt
  end.

(* ===================================================================== *)
(** ** The extension targets and the platform override *)
(* ===================================================================== *)

(** An extension object keeps the list and the dict it was built with. *)
Record Extension : Type := mkExtension {
  ext_name : string;
  sources : loc;
  extra_compile_args : loc
}.

Definition CUDAExtension (name : string) (sources extra_compile_args : loc)
  : M Extension :=
  ret {| ext_name := name; sources := sources;
         extra_compile_args := extra_compile_args |}.

Definition qattn_roots : list string :=
  ["csrc/qattn"; "csrc/qattn/instantiations_sm80"; "csrc/qattn/instantiations_sm89"].

Definition build_qattn (w : World) : M Extension :=
  found ← collect_sources w qattn_roots;
  found_items ← read_list found;
  srcs ← new_list ("csrc/qattn/pybind.cpp" :: found_items);
  cxx ← new_list ["-O3"; "-fopenmp"; "-std=c++17"];
  arch ← get_arch_flags (environ w);
  arch_items ← read_list arch;
  nvcc ← new_list (["-O3"; "-std=c++17"; "--use_fast_math"; "--threads=8"]
                     ++ arch_items);
  args ← new_dict {[ "cxx" := cxx; "nvcc" := nvcc ]};
  CUDAExtension (PROJECT_NAME +:+ "._qattn") srcs args.

Definition build_fused (w : World) : M Extension :=
  srcs ← collect_sources w ["csrc/fused"];
  cxx ← new_list ["-O3"; "-fopenmp"; "-std=c++17"];
  arch ← get_arch_flags (environ w);
  arch_items ← read_list arch;
  nvcc ← new_list (["-O3"; "-std=c++17"; "--use_fast_math"] ++ arch_items);
  args ← new_dict {[ "cxx" := cxx; "nvcc" := nvcc ]};
  CUDAExtension (PROJECT_NAME +:+ "._fused") srcs args.

(** The list [extensions]. *)
Definition build_extensions (w : World) : M (list Extension) :=
  qattn ← build_qattn w;
  fused ← build_fused w;
  ret [qattn; fused].

Definition windows_nvcc_args : list string :=
  ["-Xcompiler=/MD"; "-Xcompiler=/wd4819"].

(** [ext.extra_compile_args["nvcc"].extend([...])] *)
Definition extend_nvcc (more : list string) (ext : Extension) : M unit :=
  args ← read_dict (extra_compile_args ext);
  nvcc ← dict_get args "nvcc";
  list_extend nvcc more.

(** The statement [if sys.platform == "win32": ... else: ...]; its value
    is [extras]. *)
Definition platform_override (w : World) (extensions : list Extension)
  : M (gmap string (list string)) :=
  if String.eqb (sys_platform w) "win32" then
    for_each extensions (extend_nvcc windows_nvcc_args);;
    ret {[ "triton" := ["triton-windows>=3.3.1"] ]}
  else
    ret {[ "triton" := ["triton>=3.2.0"] ]}.

(* ===================================================================== *)
(** ** Handing over to [setup] *)
(* ===================================================================== *)

(** A target as the build driver reads it from an extension object. *)
Record Target : Type := mkTarget {
  target_name : string;
  target_sources : list string;
  target_cxx : list string;
  target_nvcc : list string
}.

(** The keyword arguments of [setup] that the script computes. *)
Record BuildGraph : Type := mkBuildGraph {
  long_description : string;
  extras_require : gmap string (list string);
  ext_modules : list Target
}.

Definition read_target (ext : Extension) : M Target :=
  srcs ← read_list (sources ext);
  args ← read_dict (extra_compile_args ext);
  cxx_loc ← dict_get args "cxx";
  cxx ← read_list cxx_loc;
  nvcc_loc ← dict_get args "nvcc";
  nvcc ← read_list nvcc_loc;
  ret {| target_name := ext_name ext; target_sources := srcs;
         target_cxx := cxx; target_nvcc := nvcc |}.

Fixpoint read_targets (exts : list Extension) : M (list Target) :=
  match exts with
  | [] => ret []
  | ext :: r =>
      t ← read_target ext;
      ts ← read_targets r;
      ret (t :: ts)
  end.

(** The whole of [setup.py], up to the call of [setup]: the result is what
    [setup] is called with, or the exception that ends the script. *)
Definition setup_py (w : World) : M BuildGraph :=
  validate_cuda_installation w;;
  extensions ← build_extensions w;
  extras ← platform_override w extensions;
  readme ← open_read w "README.md";
  targets ← read_targets extensions;
  ret {| long_description := readme; extras_require := extras;
         ext_modules := targets |}.

Definition run_setup (w : World) : result BuildGraph * state :=
  setup_py w init_state.

End Script.

(* ===================================================================== *)
(** ** [win_compat.configure_for_windows] *)
(* ===================================================================== *)

(** [ntpath.expandvars] on a text without quotes and dollar signs: [%%]
    gives one percent sign, every other [%name%] is replaced by the value
    of [name] and left as it is when [name] is not set, and a percent sign
    without a closing one is kept with what follows it. The names of the
    environment are in upper case, as Windows has them. [fuel] bounds the
    number of characters read. *)
Fixpoint until_percent (s : string) : option (string * string) :=
  match s with
  | EmptyString => None
  | String c r =>
      if Ascii.eqb c "%" then Some (EmptyString, r)
      else match until_percent r with
           | Some (var, rest) => Some (String c var, rest)
           | None => None
           end
  end.

Fixpoint expandvars_fuel (fuel : nat) (env : gmap string string) (s : string)
  : string :=
  match fuel with
  | 0 => s
  | S fuel' =>
      match s with
      | EmptyString => EmptyString
      | String c r =>
          if Ascii.eqb c "%" then
            match until_percent r with
            | Some (EmptyString, rest) =>
                String c (expandvars_fuel fuel' env rest)
            | Some (var, rest) =>
                default ("%" +:+ var +:+ "%") (env !! var)
                  +:+ expandvars_fuel fuel' env rest
            | None => s
            end
          else String c (expandvars_fuel fuel' env r)
      end
  end.

Definition expandvars (env : gmap string string) (s : string) : string :=
  expandvars_fuel (String.length s) env s.

(** [os.environ[key]] *)
Definition environ_get (env : gmap string string) (key : string)
  : result string :=
  match env !! key with
  | Some v => Ok v
  | None => Raise (KeyError key)
  end.

(** [configure_for_windows()], with [platform.system()] and [os.environ]
    as arguments: the value returned ([None] is [tt]) or the exception,
    and [os.environ] afterwards. *)
Definition configure_for_windows (system : string) (env : gmap string string)
  : result unit * gmap string string :=
  if String.eqb system "Windows" then
    let env1 := <["TRITON_CACHE_DIR" := expandvars env "%LOCALAPPDATA%\triton_cache"]> env in
    match environ_get env1 "PATH" with
    | Raise e => (Raise e, env1)
    | Ok path =>
        match environ_get env1 "CUDA_PATH" with
        | Raise e => (Raise e, env1)
        | Ok cuda_path =>
            (Ok tt, <["PATH" := path +:+ ";" +:+ cuda_path +:+ "\bin"]> env1)
        end
    end
  else (Ok tt, env).

(* ===================================================================== *)
(** ** What the specification says, as definitions *)
(* ===================================================================== *)

(** The tokens of an architecture list: the pieces between separators
    that are not empty. *)
Definition arch_tokens (environ : gmap string string) : list string :=
  List.filter nonempty (compute_capabilities environ).

(** One flag pair for every supported token, in the order of the tokens. *)
Definition arch_flags_of (tokens : list string) : list string :=
  List.concat (map gencode (List.filter supported tokens)).

(** One warning for every other token. *)
Definition arch_warnings_of (tokens : list string) : list string :=
  map warning (List.filter (λ t, negb (supported t)) tokens).

(** Splitting at every space and every semicolon. *)
Definition space_or_semicolon (c : ascii) : bool :=
  Ascii.eqb c " " || Ascii.eqb c ";".

(** Splitting at every whitespace character and every semicolon. *)
Definition whitespace_or_semicolon (c : ascii) : bool :=
  isspace c || Ascii.eqb c ";".

Definition tokens_split_at (P : ascii → bool) (s : string) : list string :=
  List.filter nonempty (split_by P s).


(* ===================================================================== *)
(** ** Worked inputs *)
(* ===================================================================== *)

Definition ARCH_KEY : string := "TORCH_CUDA_ARCH_LIST".

(** [TORCH_CUDA_ARCH_LIST="8.0;8.6;9.9"] *)
Definition environ_three : gmap string string :=
  {[ ARCH_KEY := "8.0;8.6;9.9" ]}.

(** Two identifiers separated by a tab (code point 9). *)
Definition tab_separated : string :=
  "8.0" +:+ String (ascii_of_nat 9) "8.6".

Definition environ_tab : gmap string string :=
  {[ ARCH_KEY := tab_separated ]}.

(* ===================================================================== *)
(** ** Source discovery, as the specification words it *)
(* ===================================================================== *)

(** [descend p names]: the path of what lies [names] below [p]. *)
Definition descend (p : Path) (names : list string) : Path :=
  {| root := root p; parts := parts p ++ names |}.

(** [reach es names c]: starting in a directory with entries [es] and
    going down through directories (not through links) along [names],
    one arrives at the entry [c]. *)
Inductive reach : list (string * node) → list string → node → Prop :=
| reach_entry es nm c :
    In (nm, c) es → reach es [nm] c
| reach_sub es nm sub names c :
    In (nm, Dir sub) es → reach sub names c → reach es (nm :: names) c.

(** [s] is the path of a regular file below the root [src_dir] whose name
    ends in [.cu] and does not start with a dot. *)
Definition found_under (w : World) (src_dir s : string) : Prop :=
  ∃ (n : node) (es : list (string * node)) (names : list string) (c : node),
    resolve w (parse_path src_dir) = Some n
    ∧ follow n = Dir es
    ∧ reach es names c
    ∧ endswith ".cu" (List.last names "") = true
    ∧ startswith "." (List.last names "") = false
    ∧ is_file c = true
    ∧ s = str (descend (parse_path src_dir) names).

(** A world that is nothing but its working directory. *)
Definition world_of (tree : node) : World :=
  {| CUDA_HOME := None; cwd := tree; outside := λ _, None;
     nvcc_query := λ _, None; environ := ∅; sys_platform := "linux" |}.

(** A directory with [a.cu], [.hidden.cu], [sub/b.cu] and [notes.txt]. *)
Definition small_tree : node :=
  Dir [("a.cu", File ""); (".hidden.cu", File "");
       ("sub", Dir [("b.cu", File "")]); ("notes.txt", File "")].

(** A hidden [.cu] file in [csrc/qattn/instantiations_sm80]. *)
Definition hidden_kernel_tree : node :=
  Dir [("csrc",
        Dir [("qattn",
              Dir [("instantiations_sm80", Dir [(".k.cu", File "")])])])].

(** A kernel in [csrc/qattn/instantiations_sm80], one in [csrc/fused]. *)
Definition kernel_tree : node :=
  Dir [("csrc",
        Dir [("qattn",
              Dir [("pybind.cpp", File "");
                   ("instantiations_sm80", Dir [("k.cu", File "")])]);
             ("fused", Dir [("f.cu", File "")])])].

(* ===================================================================== *)
(** ** Toolchain validation, as the specification words it *)
(* ===================================================================== *)

(** [<CUDA_HOME>/bin/nvcc] *)
Definition nvcc_path_of (home : string) : Path :=
  joinpath (joinpath (parse_path home) "bin") "nvcc".

(** The second-to-last element of a list. *)
Definition second_to_last (l : list string) : option string :=
  match rev l with
  | _ :: x :: _ => Some x
  | _ => None
  end.

(** What comes before the first character for which [P] holds. *)
Fixpoint before (P : ascii → bool) (s : string) : string :=
  match s with
  | EmptyString => EmptyString
  | String c r => if P c then EmptyString else String c (before P r)
  end.

Definition before_comma (s : string) : string := before (Ascii.eqb ",") s.

(** No character of [s] satisfies [P]. *)
Fixpoint free_of (P : ascii → bool) (s : string) : bool :=
  match s with
  | EmptyString => true
  | String c r => negb (P c) && free_of P r
  end.

Section ValidationSpec.
Context {PKG : Packaging}.

(** The outcome of the checks on the query output [out]: the token is
    taken, parsed and compared with the minimum. *)
Definition version_check (out : string) : result unit :=
  match second_to_last (split_ws out) with
  | None => Raise IndexError
  | Some field =>
      match parse (before_comma field) with
      | None => Raise (InvalidVersion (before_comma field))
      | Some v =>
          if version_lt v MIN_CUDA_VERSION
          then Raise (RuntimeError
                        ("Requires CUDA " +:+ version_text MIN_CUDA_VERSION
                         +:+ "+, found " +:+ version_text v))
          else Ok tt
      end
  end.




End ValidationSpec.

(* ===================================================================== *)
(** ** Release versions: a [Packaging] to compute with *)
(* ===================================================================== *)

(** Versions that are dotted numbers, compared as [packaging] compares
    release segments: number by number, a missing number counting as
    zero. Any other text is no version. *)
Definition digit_value (c : ascii) : option N :=
  let n := N_of_ascii c in
  if ((48 <=? n) && (n <=? 57))%N then Some (n - 48)%N else None.

Fixpoint number_from (acc : N) (s : string) : option N :=
  match s with
  | EmptyString => Some acc
  | String c r =>
      match digit_value c with
      | Some d => number_from (10 * acc + d)%N r
      | None => None
      end
  end.

Definition parse_number (s : string) : option N :=
  if nonempty s then number_from 0%N s else None.

Definition parse_release (s : string) : option (list N) :=
  mapM parse_number (split "." s).

Fixpoint lex_lt (a b : list N) : bool :=
  match a, b with
  | x :: a', y :: b' => (x <? y)%N || ((x =? y)%N && lex_lt a' b')
  | _, _ => false
  end.

Definition pad (n : nat) (l : list N) : list N :=
  l ++ replicate (n - List.length l) 0%N.

Definition release_lt (a b : list N) : bool :=
  let n := Nat.max (List.length a) (List.length b) in
  lex_lt (pad n a) (pad n b).

Definition release_text (v : list N) : string :=
  String.concat "." (map pretty v).

Definition release_versions : Packaging.
Proof.
  refine {| Version := list N;
            parse := parse_release;
            version_lt := release_lt;
            version_text := release_text;
            MIN_CUDA_VERSION := [12; 0]%N;
            parse_min := eq_refl;
            version_lt_irrefl := _ |}.
  intros v. unfold release_lt.
  induction (pad (Nat.max (List.length v) (List.length v)) v) as [|x l IH];
    [reflexivity|].
  cbn [lex_lt]. rewrite N.ltb_irrefl, N.eqb_refl. exact IH.
Defined.

(** The banner of a CUDA 10.1 [nvcc --version]. *)
Definition banner_10_1 : string :=
  "nvcc: NVIDIA (R) Cuda compiler driver
Copyright (c) 2005-2019 NVIDIA Corporation
Built on Sun_Jul_28_19:07:16_PDT_2019
Cuda compilation tools, release 10.1, V10.1.243
".

(** A banner in the same layout for release 12.0. *)
Definition banner_12_0 : string :=
  "nvcc: NVIDIA (R) Cuda compiler driver
Cuda compilation tools, release 12.0, V12.0.140
".

(** The banner of a CUDA 12.2 [nvcc --version]: a [Build] line follows
    the release line. *)
Definition banner_12_2 : string :=
  "nvcc: NVIDIA (R) Cuda compiler driver
Copyright (c) 2005-2023 NVIDIA Corporation
Built on Tue_Aug_15_22:02:13_PDT_2023
Cuda compilation tools, release 12.2, V12.2.140
Build cuda_12.2.r12.2/compiler.33191640_0
".

(** A world with a toolchain in [/usr/local/cuda] whose [nvcc] prints
    [banner], and the working directory [tree]. *)
Definition toolchain_world (banner : string) (tree : node) (platform : string)
  : World :=
  {| CUDA_HOME := Some "/usr/local/cuda";
     cwd := tree;
     outside := λ p, if String.eqb p "/usr/local/cuda/bin/nvcc"
                     then Some (File "") else None;
     nvcc_query := λ cmd, if String.eqb cmd "/usr/local/cuda/bin/nvcc"
                          then Some banner else None;
     environ := {[ "TORCH_CUDA_ARCH_LIST" := "8.0 8.9" ]};
     sys_platform := platform |}.

(* ===================================================================== *)
(** ** The assembled targets, as values *)
(* ===================================================================== *)

Definition cxx_args : list string := ["-O3"; "-fopenmp"; "-std=c++17"].

Definition arch_flags (w : World) : list string :=
  arch_flags_of (arch_tokens (environ w)).

Definition arch_warnings (w : World) : list string :=
  arch_warnings_of (arch_tokens (environ w)).

Definition qattn_found (w : World) : list string :=
  List.concat (map (root_sources w) qattn_roots).

Definition qattn_sources (w : World) : list string :=
  "csrc/qattn/pybind.cpp" :: qattn_found w.

Definition fused_sources (w : World) : list string :=
  List.concat (map (root_sources w) ["csrc/fused"]).

Definition qattn_nvcc (w : World) : list string :=
  ["-O3"; "-std=c++17"; "--use_fast_math"; "--threads=8"] ++ arch_flags w.

Definition fused_nvcc (w : World) : list string :=
  ["-O3"; "-std=c++17"; "--use_fast_math"] ++ arch_flags w.

(** The two extension objects: where their lists and dicts are. *)
Definition qattn_ext : Extension :=
  {| ext_name := "spas_sage_attn._qattn"; sources := 1; extra_compile_args := 5 |}.

Definition fused_ext : Extension :=
  {| ext_name := "spas_sage_attn._fused"; sources := 6; extra_compile_args := 10 |}.

(** The heap once [extensions] is built, with the nvcc lists of the two
    targets given: eleven objects, in the order of their creation. *)
Definition heap_with (w : World) (nvcc_q nvcc_f : list string) : list obj :=
  [ OList (qattn_found w);
    OList (qattn_sources w);
    OList cxx_args;
    OList (arch_flags w);
    OList nvcc_q;
    ODict {[ "cxx" := 2; "nvcc" := 4 ]};
    OList (fused_sources w);
    OList cxx_args;
    OList (arch_flags w);
    OList nvcc_f;
    ODict {[ "cxx" := 7; "nvcc" := 9 ]} ].

Definition state_with (w : World) (nvcc_q nvcc_f : list string) : state :=
  {| heap := heap_with w nvcc_q nvcc_f;
     stdout := arch_warnings w ++ arch_warnings w |}.

Definition built_state (w : World) : state :=
  state_with w (qattn_nvcc w) (fused_nvcc w).

Definition qattn_target (w : World) (nvcc : list string) : Target :=
  {| target_name := "spas_sage_attn._qattn";
     target_sources := qattn_sources w;
     target_cxx := cxx_args;
     target_nvcc := nvcc |}.

Definition fused_target (w : World) (nvcc : list string) : Target :=
  {| target_name := "spas_sage_attn._fused";
     target_sources := fused_sources w;
     target_cxx := cxx_args;
     target_nvcc := nvcc |}.

(** The locations of the list objects of a target: sources, cxx, nvcc. *)
Definition list_locations (st : state) (ext : Extension) : option (list loc) :=
  match heap st !! extra_compile_args ext with
  | Some (ODict args) =>
      match args !! "cxx", args !! "nvcc" with
      | Some c, Some n => Some [sources ext; c; n]
      | _, _ => None
      end
  | _ => None
  end.

(** A Windows process environment. *)
Definition windows_environ : gmap string string :=
  {[ "PATH" := "C:\Windows"; "CUDA_PATH" := "C:\CUDA\v12.0";
     "LOCALAPPDATA" := "C:\Users\u\AppData\Local" ]}.

(* ===================================================================== *)
(** ** Further notions used below *)
(* ===================================================================== *)

(** A line break. *)
Definition newline : ascii := ascii_of_nat 10.
(* ===================================================================== *)
(** ** Running the monad *)
(* ===================================================================== *)

Lemma run_bind {A B} (m : M A) (k : A → M B) st :
  (m ≫= k) st = match m st with
               | (Ok a, st') => k a st'
               | (Raise e, st') => (Raise e, st')
               end.
Proof. reflexivity. Qed.

Lemma run_ret {A} (a : A) st : (mret a : M A) st = (Ok a, st).
Proof. reflexivity. Qed.

Lemma insert_last (h : list obj) (o o' : obj) :
  <[List.length h := o']> (h ++ [o]) = h ++ [o'].
Proof.
  induction h as [|x h IH]; simpl; [reflexivity|]. f_equal. exact IH.
Qed.

Lemma lookup_last (h : list obj) (o : obj) :
  (h ++ [o]) !! List.length h = Some o.
Proof. induction h as [|x h IH]; simpl; [reflexivity|exact IH]. Qed.

(** A loop that only extends the list at [l]: the list grows by what each
    round adds, nothing else changes. *)
Lemma for_each_extend {A} (f : A → list string) (xs : list A) :
  ∀ (l : loc) (h : list obj) (out acc : list string),
    h !! l = Some (OList acc) →
    for_each xs (λ x, list_extend l (f x)) {| heap := h; stdout := out |}
    = (Ok tt, {| heap := <[l := OList (acc ++ List.concat (map f xs))]> h;
                 stdout := out |}).
Proof.
  induction xs as [|x xs IH]; intros l h out acc Hl; simpl.
  - rewrite app_nil_r, list_insert_id by exact Hl. reflexivity.
  - rewrite run_bind. unfold list_extend at 1. simpl. rewrite Hl.
    rewrite (IH l _ out (acc ++ f x)).
    + rewrite list_insert_insert_eq, app_assoc. reflexivity.
    + apply list_lookup_insert_eq. eapply lookup_lt_Some, Hl.
Qed.

(* ===================================================================== *)
(** ** Architecture flags *)
(* ===================================================================== *)

Lemma supported_empty : supported "" = false.
Proof. reflexivity. Qed.

Lemma arch_loop (raw : list string) :
  ∀ (l : loc) (h : list obj) (out acc : list string),
    h !! l = Some (OList acc) →
    for_each raw (arch_step l) {| heap := h; stdout := out |}
    = (Ok tt,
       {| heap := <[l := OList (acc ++ arch_flags_of (List.filter nonempty raw))]> h;
          stdout := out ++ arch_warnings_of (List.filter nonempty raw) |}).
Proof.
  induction raw as [|t raw IH]; intros l h out acc Hl.
  - simpl. unfold arch_flags_of, arch_warnings_of. simpl.
    rewrite !app_nil_r, list_insert_id by exact Hl. reflexivity.
  - cbn [for_each]. rewrite run_bind. unfold arch_step at 1.
    destruct t as [|c t].
    + cbn. apply IH, Hl.
    + cbn [nonempty negb List.filter].
      destruct (supported (String c t)) eqn:Hs.
      * unfold list_extend at 1. cbn [heap stdout]. rewrite Hl.
        rewrite (IH l _ out (acc ++ gencode (String c t))).
        -- unfold arch_flags_of, arch_warnings_of. cbn [List.filter].
           rewrite Hs. cbn [negb map List.concat].
           rewrite list_insert_insert_eq, app_assoc. reflexivity.
        -- apply list_lookup_insert_eq. eapply lookup_lt_Some, Hl.
      * unfold print at 1. cbn [heap stdout].
        rewrite (IH l h _ acc Hl).
        unfold arch_flags_of, arch_warnings_of. cbn [List.filter].
        rewrite Hs. cbn [negb map]. rewrite <- app_assoc. reflexivity.
Qed.

Lemma get_arch_flags_run (environ : gmap string string) (st : state) :
  get_arch_flags environ st
  = (Ok (List.length (heap st)),
     {| heap := heap st ++ [OList (arch_flags_of (arch_tokens environ))];
        stdout := stdout st ++ arch_warnings_of (arch_tokens environ) |}).
Proof.
  destruct st as [h out]. unfold get_arch_flags.
  rewrite run_bind. unfold new_list at 1. cbn [heap stdout].
  rewrite run_bind.
  rewrite (arch_loop _ (List.length h) (h ++ [OList []]) out [] (lookup_last h _)).
  rewrite run_ret, insert_last. reflexivity.
Qed.

Lemma split_replace_space (s : string) :
  split ";" (replace_char " " ";" s) = split_by space_or_semicolon s.
Proof.
  unfold split. induction s as [|c s IH]; [reflexivity|].
  cbn [replace_char split_by]. unfold space_or_semicolon at 1.
  destruct (Ascii.eqb c " ") eqn:Hc.
  - change (";" +:+ replace_char " " ";" s)
      with (String ";" (replace_char " " ";" s)).
    cbn [split_by Ascii.eqb Bool.eqb andb orb]. f_equal. exact IH.
  - cbn [split_by orb]. rewrite (Ascii.eqb_sym ";" c).
    destruct (Ascii.eqb c ";"); rewrite IH; reflexivity.
Qed.

Lemma arch_flags_of_app (a b : list string) :
  arch_flags_of (a ++ b) = arch_flags_of a ++ arch_flags_of b.
Proof.
  unfold arch_flags_of. rewrite List.filter_app, map_app.
  apply List.concat_app.
Qed.

Lemma arch_warnings_of_app (a b : list string) :
  arch_warnings_of (a ++ b) = arch_warnings_of a ++ arch_warnings_of b.
Proof.
  unfold arch_warnings_of. rewrite List.filter_app. apply map_app.
Qed.

Lemma supported_iff (t : string) :
  supported t = true ↔ t = "8.0" ∨ t = "8.6" ∨ t = "8.9" ∨ t = "9.0".
Proof.
  unfold supported, SUPPORTED_ARCHS. rewrite bool_decide_eq_true.
  rewrite !elem_of_union, !elem_of_singleton. tauto.
Qed.

Lemma filter_nonempty_all (l : list string) :
  List.Forall (λ t, nonempty t = true) (List.filter nonempty l).
Proof.
  apply List.Forall_forall. intros t Ht.
  apply List.filter_In in Ht. tauto.
Qed.

(** C1. [get_arch_flags] never raises; it returns a new list holding, for
    the tokens of [TORCH_CUDA_ARCH_LIST] taken in order, one pair
    ["-gencode"], ["arch=compute_<code>,code=sm_<code>"] for every token
    that is one of 8.0, 8.6, 8.9 and 9.0 (the code being the token without
    its dot), and prints one warning naming the token for every other
    one. A repeated token is treated again. For ["8.0;8.6;9.9"] the flags
    are those of 8.0 and 8.6, with a warning for 9.9. *)
Theorem C1_get_arch_flags :
  (∀ (environ : gmap string string) (st : state),
     get_arch_flags environ st
     = (Ok (List.length (heap st)),
        {| heap := heap st ++ [OList (arch_flags_of (arch_tokens environ))];
           stdout := stdout st ++ arch_warnings_of (arch_tokens environ) |}))
  ∧ (∀ (before after : list string) (t : string),
       arch_flags_of (before ++ t :: after)
       = arch_flags_of before
         ++ (if supported t
             then ["-gencode";
                   "arch=compute_" +:+ replace_char "." "" t
                     +:+ ",code=sm_" +:+ replace_char "." "" t]
             else [])
         ++ arch_flags_of after
       ∧ arch_warnings_of (before ++ t :: after)
         = arch_warnings_of before
           ++ (if supported t
               then []
               else ["Warning: Unsupported architecture " +:+ t
                       +:+ " will be ignored"])
           ++ arch_warnings_of after)
  ∧ (∀ t : string,
       supported t = true ↔ t = "8.0" ∨ t = "8.6" ∨ t = "8.9" ∨ t = "9.0")
  ∧ map (replace_char "." "") ["8.0"; "8.6"; "8.9"; "9.0"]
    = ["80"; "86"; "89"; "90"]
  ∧ get_arch_flags environ_three init_state
    = (Ok 0,
       {| heap := [OList ["-gencode"; "arch=compute_80,code=sm_80";
                          "-gencode"; "arch=compute_86,code=sm_86"]];
          stdout := ["Warning: Unsupported architecture 9.9 will be ignored"] |}).
Proof.
  split; [exact get_arch_flags_run|].
  split.
  { intros before after t.
    change (before ++ t :: after) with (before ++ [t] ++ after).
    rewrite !arch_flags_of_app, !arch_warnings_of_app.
    unfold arch_flags_of at 2, arch_warnings_of at 2. cbn [List.filter].
    destruct (supported t); split; reflexivity. }
  split; [exact supported_iff|].
  split; [reflexivity|]. vm_compute. reflexivity.
Qed.

(** C5, as the code has it. The tokens that [get_arch_flags] checks are
    the pieces of [TORCH_CUDA_ARCH_LIST] between spaces (code point 32
    only) and semicolons that are not empty; an absent variable is read
    as the empty string, for which the list of flags is empty and nothing
    is printed. *)
Theorem C5_arch_tokens :
  (∀ environ : gmap string string,
     arch_tokens environ
     = tokens_split_at space_or_semicolon (default "" (environ !! ARCH_KEY)))
  ∧ (∀ environ : gmap string string,
       List.Forall (λ t, nonempty t = true) (arch_tokens environ))
  ∧ (∀ (environ : gmap string string) (st : state),
       get_arch_flags (delete ARCH_KEY environ) st
       = get_arch_flags (<[ARCH_KEY := ""]> environ) st
       ∧ get_arch_flags (delete ARCH_KEY environ) st
         = (Ok (List.length (heap st)),
            {| heap := heap st ++ [OList []]; stdout := stdout st |})).
Proof.
  split.
  { intros environ. unfold arch_tokens, compute_capabilities, tokens_split_at.
    rewrite split_replace_space. reflexivity. }
  split.
  { intros environ. apply filter_nonempty_all. }
  intros environ st. rewrite !get_arch_flags_run.
  unfold arch_tokens, compute_capabilities, ARCH_KEY.
  rewrite lookup_delete_eq, lookup_insert_eq. cbn.
  rewrite app_nil_r. destruct st; split; reflexivity.
Qed.

(** C5, as the specification has it, fails: a tab is whitespace, and the
    code does not cut there. Two supported identifiers separated by a tab
    are read as one unsupported token. *)
Lemma C5_tab_is_no_separator :
  tokens_split_at whitespace_or_semicolon tab_separated = ["8.0"; "8.6"]
  ∧ arch_tokens environ_tab = [tab_separated]
  ∧ get_arch_flags environ_tab init_state
    = (Ok 0, {| heap := [OList []]; stdout := [warning tab_separated] |}).
Proof. vm_compute. repeat split; reflexivity. Qed.

(* ===================================================================== *)
(** ** Source discovery *)
(* ===================================================================== *)

Lemma node_ind_nested (P : node → Prop) :
  (∀ c, P (File c)) →
  (∀ es, List.Forall (λ e : string * node, P e.2) es → P (Dir es)) →
  (∀ t, P t → P (Symlink t)) →
  P Dangling →
  (∀ d, P (Special d)) →
  ∀ n, P n.
Proof.
  intros HF HD HS HDa HSp. fix IH 1. intros [c|es|t| |d].
  - apply HF.
  - apply HD. induction es as [|e es IHes]; constructor.
    + apply IH.
    + exact IHes.
  - apply HS, IH.
  - exact HDa.
  - apply HSp.
Qed.

Lemma rglob_node_Dir (suffix : string) (p : Path) (es : list (string * node)) :
  rglob_node suffix p (Dir es)
  = select suffix p es
    ++ List.concat (map (λ e : string * node,
                           rglob_node suffix (joinpath p e.1) e.2) es).
Proof.
  cbn [rglob_node]. f_equal.
  induction es as [|e es IH]; [reflexivity|].
  cbn [map List.concat]. f_equal. exact IH.
Qed.

Lemma descend_joinpath (p : Path) (nm : string) (names : list string) :
  descend (joinpath p nm) names = descend p (nm :: names).
Proof.
  unfold descend, joinpath. cbn [root parts]. f_equal.
  rewrite <- app_assoc. reflexivity.
Qed.

Lemma joinpath_descend (p : Path) (nm : string) :
  joinpath p nm = descend p [nm].
Proof. reflexivity. Qed.

Lemma reach_nonempty es names c : reach es names c → names ≠ [].
Proof. intros Hr; destruct Hr; discriminate. Qed.

Lemma last_cons_nonempty (x : string) (l : list string) (d : string) :
  l ≠ [] → List.last (x :: l) d = List.last l d.
Proof. destruct l; [congruence|reflexivity]. Qed.

Lemma select_In suffix p es q c :
  In (q, c) (select suffix p es)
  ↔ ∃ nm, In (nm, c) es ∧ endswith suffix nm = true ∧ q = joinpath p nm.
Proof.
  unfold select. rewrite List.in_map_iff. split.
  - intros [[nm c'] [Heq Hin]]. apply List.filter_In in Hin as [Hin Hs].
    cbn in Heq, Hs. injection Heq as <- <-. eauto.
  - intros (nm & Hin & Hs & ->). exists (nm, c). split; [reflexivity|].
    apply List.filter_In. auto.
Qed.

(** Everything the scan lists is reached through directories and has the
    suffix. *)
Lemma rglob_node_sound (suffix : string) (n : node) :
  ∀ p q c, In (q, c) (rglob_node suffix p n) →
    ∃ es names, n = Dir es ∧ reach es names c
                ∧ endswith suffix (List.last names "") = true
                ∧ q = descend p names.
Proof.
  induction n as [c0|es IH|t _| |d] using node_ind_nested;
    intros p q c Hin; try (cbn in Hin; contradiction).
  rewrite rglob_node_Dir in Hin. apply List.in_app_or in Hin as [Hin|Hin].
  - apply select_In in Hin as (nm & Hin & Hs & ->).
    exists es, [nm]. repeat split; auto. constructor; exact Hin.
  - apply List.in_concat in Hin as (l & Hl & Hin).
    apply List.in_map_iff in Hl as ([nm c'] & <- & He).
    rewrite List.Forall_forall in IH.
    destruct (IH _ He _ _ _ Hin) as (sub & names & Hc' & Hr & Hs & ->).
    cbn in Hc'. subst c'. exists es, (nm :: names).
    repeat split.
    + eapply reach_sub; eauto.
    + rewrite last_cons_nonempty; [exact Hs|]. eapply reach_nonempty, Hr.
    + apply descend_joinpath.
Qed.

(** Everything so reached is listed. *)
Lemma rglob_node_complete (suffix : string) es names c :
  reach es names c →
  ∀ p, endswith suffix (List.last names "") = true →
       In (descend p names, c) (rglob_node suffix p (Dir es)).
Proof.
  induction 1 as [es nm c Hin|es nm sub names c Hin Hr IH]; intros p Hs.
  - rewrite rglob_node_Dir. apply List.in_or_app. left.
    apply select_In. exists nm. auto.
  - rewrite rglob_node_Dir. apply List.in_or_app. right.
    apply List.in_concat. eexists. split.
    + apply List.in_map_iff. exists (nm, Dir sub). split; [reflexivity|exact Hin].
    + cbn [fst snd]. rewrite <- descend_joinpath. apply IH.
      rewrite last_cons_nonempty in Hs; [exact Hs|]. eapply reach_nonempty, Hr.
Qed.

Lemma name_descend (p : Path) (names : list string) :
  names ≠ [] → name (descend p names) = List.last names "".
Proof.
  intros Hne. unfold name, descend. cbn [parts].
  destruct (List.exists_last Hne) as (l & x & ->).
  rewrite app_assoc, !List.last_last. reflexivity.
Qed.

Lemma root_sources_found (w : World) (src_dir s : string) :
  In s (root_sources w src_dir) ↔ found_under w src_dir s.
Proof.
  unfold root_sources, found_under, rglob. split.
  - intros Hin. apply List.in_map_iff in Hin as ([q c] & <- & Hin).
    apply List.filter_In in Hin as [Hin Hf]. cbn [fst snd] in *.
    destruct (resolve w (parse_path src_dir)) as [n|]; [|contradiction].
    destruct (follow n) as [?|es|?| |?] eqn:Hn; try contradiction.
    apply rglob_node_sound in Hin as (es' & names & Hes & Hr & Hs & ->).
    injection Hes as <-.
    apply andb_true_iff in Hf as [Hfile Hdot].
    rewrite name_descend in Hdot by (eapply reach_nonempty, Hr).
    apply negb_true_iff in Hdot.
    exists n, es, names, c. repeat split; auto.
  - intros (n & es & names & c & Hres & Hn & Hr & Hs & Hdot & Hfile & ->).
    rewrite Hres, Hn. apply List.in_map_iff.
    exists (descend (parse_path src_dir) names, c). split; [reflexivity|].
    apply List.filter_In. split.
    + apply rglob_node_complete; assumption.
    + cbn [fst snd]. rewrite name_descend by (eapply reach_nonempty, Hr).
      rewrite Hfile, Hdot. reflexivity.
Qed.

Lemma collect_sources_run (w : World) (src_dirs : list string) (st : state) :
  collect_sources w src_dirs st
  = (Ok (List.length (heap st)),
     {| heap := heap st ++ [OList (List.concat (map (root_sources w) src_dirs))];
        stdout := stdout st |}).
Proof.
  destruct st as [h out]. unfold collect_sources.
  rewrite run_bind. unfold new_list at 1. cbn [heap stdout].
  rewrite run_bind.
  rewrite (for_each_extend (root_sources w) src_dirs (List.length h)
             (h ++ [OList []]) out [] (lookup_last h _)).
  rewrite run_ret, insert_last. reflexivity.
Qed.

(** C3. [collect_sources] returns a new list: the lists found for the
    roots, one after the other in the order of the roots. What is found
    for a root are the paths of the entries below it, through
    directories, whose name ends in [.cu] and does not start with a dot
    and which are regular files. A root that does not exist gives
    nothing and nothing is raised. In a directory with [a.cu],
    [.hidden.cu], [sub/b.cu] and [notes.txt] this finds [a.cu] and
    [sub/b.cu]. *)
Theorem C3_collect_sources :
  (∀ (w : World) (src_dirs : list string) (st : state),
     collect_sources w src_dirs st
     = (Ok (List.length (heap st)),
        {| heap := heap st
                   ++ [OList (List.concat (map (root_sources w) src_dirs))];
           stdout := stdout st |}))
  ∧ (∀ (w : World) (src_dir s : string),
       In s (root_sources w src_dir) ↔ found_under w src_dir s)
  ∧ (∀ (w : World) (src_dir : string),
       path_exists w (parse_path src_dir) = false →
       root_sources w src_dir = [])
  ∧ collect_sources (world_of small_tree) ["."] init_state
    = (Ok 0, {| heap := [OList ["a.cu"; "sub/b.cu"]]; stdout := [] |}).
Proof.
  split; [exact collect_sources_run|].
  split; [exact root_sources_found|].
  split; [|vm_compute; reflexivity].
  intros w src_dir Hex. unfold path_exists in Hex.
  unfold root_sources, rglob.
  destruct (resolve w (parse_path src_dir)) as [n|]; [|reflexivity].
  unfold node_exists in Hex. destruct (follow n); try discriminate. reflexivity.
Qed.

Lemma C3_collect_sources_witness :
  path_exists (world_of small_tree) (parse_path "nowhere") = false
  ∧ root_sources (world_of small_tree) "nowhere" = [].
Proof.
  split; [reflexivity|].
  apply (proj1 (proj2 (proj2 C3_collect_sources))). reflexivity.
Defined.

(* ===================================================================== *)
(** ** Toolchain validation *)
(* ===================================================================== *)

Lemma split_by_before (P : ascii → bool) (s : string) :
  ∃ t, split_by P s = before P s :: t.
Proof.
  induction s as [|c s [t IH]]; cbn [split_by before]; [eauto|].
  destruct (P c); [eauto|]. rewrite IH. eauto.
Qed.

Lemma before_decompose (P : ascii → bool) (s : string) :
  ∃ rest, s = before P s +:+ rest
          ∧ match rest with
            | EmptyString => True
            | String c _ => P c = true
            end.
Proof.
  induction s as [|c s (rest & Hs & Hrest)]; cbn [before].
  - exists "". auto.
  - destruct (P c) eqn:Hc.
    + exists (String c s). auto.
    + exists rest. split; [|exact Hrest].
      change (String c (before P s) +:+ rest)
        with (String c (before P s +:+ rest)).
      rewrite <- Hs. reflexivity.
Qed.

Lemma before_free (P : ascii → bool) (s : string) :
  free_of P (before P s) = true.
Proof.
  induction s as [|c s IH]; cbn [before]; [reflexivity|].
  destruct (P c) eqn:Hc; [reflexivity|]. cbn [free_of]. rewrite Hc. exact IH.
Qed.

Lemma split_by_free (P : ascii → bool) (s : string) :
  List.Forall (λ f, free_of P f = true) (split_by P s).
Proof.
  induction s as [|c s IH]; cbn [split_by].
  - repeat constructor.
  - destruct (P c) eqn:Hc; [constructor; [reflexivity|exact IH]|].
    destruct (split_by P s) as [|h t]; [repeat constructor; cbn; now rewrite Hc|].
    inversion IH; subst. constructor; [|assumption].
    cbn [free_of]. rewrite Hc. assumption.
Qed.

Lemma split_ws_fields (out : string) :
  List.Forall (λ f, nonempty f = true ∧ free_of isspace f = true) (split_ws out).
Proof.
  unfold split_ws. apply List.Forall_forall. intros f Hf.
  apply List.filter_In in Hf as [Hin Hne]. split; [exact Hne|].
  pose proof (split_by_free isspace out) as Hall.
  rewrite List.Forall_forall in Hall. exact (Hall f Hin).
Qed.

Lemma getitem_first (x : string) (t : list string) (st : state) :
  getitem (x :: t) 0 st = (Ok x, st).
Proof.
  unfold getitem. cbn [List.length]. rewrite Nat2Z.inj_succ.
  replace (0 <? 0)%Z with false by reflexivity. cbn [orb].
  destruct (Z.leb_spec (Z.succ (Z.of_nat (List.length t))) 0); [lia|].
  reflexivity.
Qed.

Lemma getitem_second_to_last (l : list string) (st : state) :
  getitem l (-2) st
  = (match second_to_last l with
     | Some x => Ok x
     | None => Raise IndexError
     end, st).
Proof.
  unfold getitem, second_to_last.
  replace (-2 <? 0)%Z with true by reflexivity.
  destruct (rev l) as [|a [|b r]] eqn:Hrev.
  - apply (f_equal (@rev string)) in Hrev. rewrite rev_involutive in Hrev.
    subst l. reflexivity.
  - apply (f_equal (@rev string)) in Hrev. rewrite rev_involutive in Hrev.
    subst l. reflexivity.
  - apply (f_equal (@rev string)) in Hrev. rewrite rev_involutive in Hrev.
    subst l. cbn [rev]. rewrite <- app_assoc. cbn [app].
    rewrite List.length_app. cbn [List.length].
    destruct (Z.ltb_spec (-2 + Z.of_nat (List.length (rev r) + 2)) 0); [lia|].
    destruct (Z.leb_spec (Z.of_nat (List.length (rev r) + 2))
                (-2 + Z.of_nat (List.length (rev r) + 2))); [lia|].
    cbn [orb].
    replace (Z.to_nat (-2 + Z.of_nat (List.length (rev r) + 2)))
      with (List.length (rev r) + 0) by lia.
    rewrite lookup_app_r by lia.
    replace (List.length (rev r) + 0 - List.length (rev r)) with 0 by lia.
    reflexivity.
Qed.

Lemma second_to_last_app (pre : list string) (f l : string) :
  second_to_last (pre ++ [f; l]) = Some f.
Proof.
  unfold second_to_last. rewrite rev_app_distr. reflexivity.
Qed.

Section Validation.
Context {PKG : Packaging}.

Lemma version_token_run (out : string) (st : state) :
  version_token out st
  = (match second_to_last (split_ws out) with
     | Some field => Ok (before_comma field)
     | None => Raise IndexError
     end, st).
Proof.
  unfold version_token. rewrite run_bind, getitem_second_to_last.
  destruct (second_to_last (split_ws out)) as [field|]; [|reflexivity].
  unfold split, before_comma.
  destruct (split_by_before (Ascii.eqb ",") field) as [t ->].
  apply getitem_first.
Qed.

Lemma validate_run (w : World) (st : state) :
  validate_cuda_installation w st
  = (match CUDA_HOME w with
     | None => Raise (RuntimeError "CUDA_HOME not found. CUDA 12.0+ required")
     | Some home =>
         if path_exists w (nvcc_path_of home) then
           match nvcc_query w (str (nvcc_path_of home)) with
           | None => Raise (CalledProcessError (str (nvcc_path_of home)))
           | Some out => version_check out
           end
         else Raise (RuntimeError ("nvcc not found at " +:+ str (nvcc_path_of home)))
     end, st).
Proof.
  unfold validate_cuda_installation.
  destruct (CUDA_HOME w) as [home|]; [|reflexivity].
  fold (nvcc_path_of home).
  destruct (path_exists w (nvcc_path_of home)); [|reflexivity].
  cbn [negb]. rewrite run_bind. unfold check_output.
  destruct (nvcc_query w (str (nvcc_path_of home))) as [out|]; [|reflexivity].
  cbn. rewrite run_bind, version_token_run. unfold version_check.
  destruct (second_to_last (split_ws out)) as [field|]; [|reflexivity].
  rewrite run_bind. unfold parse_version.
  destruct (parse (before_comma field)) as [v|]; [|reflexivity].
  cbn. destruct (version_lt v MIN_CUDA_VERSION); reflexivity.
Qed.



Lemma validate_total (w : World) (st : state) :
  validate_cuda_installation w st = (Ok tt, st)
  ∨ ∃ e, validate_cuda_installation w st = (Raise e, st).
Proof.
  rewrite validate_run.
  destruct (CUDA_HOME w) as [home|]; [|eauto].
  destruct (path_exists w (nvcc_path_of home)); [|eauto].
  destruct (nvcc_query w (str (nvcc_path_of home))) as [out|]; [|eauto].
  destruct (version_check out) as [[]|e]; eauto.
Qed.

End Validation.




(** C4. The token that validation parses and compares with the minimum is
    taken from the output of the query in two steps: the second-to-last
    of its whitespace-separated fields, then what comes before the first
    comma of that field. With fewer than two fields there is no token
    and [IndexError] is raised. *)
Theorem C4_version_token {PKG : Packaging} :
  (∀ (out : string) (st : state),
     version_token out st
     = (match second_to_last (split_ws out) with
        | Some field => Ok (before_comma field)
        | None => Raise IndexError
        end, st))
  ∧ (∀ out : string,
       List.Forall (λ f, nonempty f = true ∧ free_of isspace f = true)
                   (split_ws out))
  ∧ (∀ (fields : list string) (field last : string),
       second_to_last (fields ++ [field; last]) = Some field)
  ∧ (∀ field : string,
       free_of (Ascii.eqb ",") (before_comma field) = true
       ∧ ∃ rest : string,
           field = before_comma field +:+ rest
           ∧ (rest = "" ∨ startswith "," rest = true))
  ∧ (∀ (w : World) (st : state) (home out field : string),
       CUDA_HOME w = Some home →
       path_exists w (nvcc_path_of home) = true →
       nvcc_query w (str (nvcc_path_of home)) = Some out →
       second_to_last (split_ws out) = Some field →
       validate_cuda_installation w st
       = (match parse (before_comma field) with
          | None => Raise (InvalidVersion (before_comma field))
          | Some v =>
              if version_lt v MIN_CUDA_VERSION
              then Raise (RuntimeError
                            ("Requires CUDA " +:+ version_text MIN_CUDA_VERSION
                             +:+ "+, found " +:+ version_text v))
              else Ok tt
          end, st))
  ∧ version_token banner_10_1 init_state = (Ok "10.1", init_state).
Proof.
  split; [exact version_token_run|].
  split; [exact split_ws_fields|].
  split; [exact second_to_last_app|].
  split.
  { intros field. split; [apply before_free|].
    destruct (before_decompose (Ascii.eqb ",") field) as (rest & Hf & Hrest).
    exists rest. split; [exact Hf|].
    destruct rest as [|c rest]; [left; reflexivity|right].
    apply Ascii.eqb_eq in Hrest. subst c.
    unfold startswith. cbn. destruct rest; reflexivity. }
  split; [|vm_compute; reflexivity].
  intros w st home out field Hh Hex Hq Hf.
  rewrite validate_run, Hh, Hex, Hq. unfold version_check. rewrite Hf.
  reflexivity.
Qed.

Lemma C4_version_token_witness :
  validate_cuda_installation (PKG := release_versions)
    (toolchain_world banner_10_1 small_tree "linux") init_state
  = (Raise (RuntimeError "Requires CUDA 12.0+, found 10.1"), init_state).
Proof.
  rewrite (proj1 (proj2 (proj2 (proj2 (proj2
             (C4_version_token (PKG := release_versions))))))
             (toolchain_world banner_10_1 small_tree "linux") init_state
             "/usr/local/cuda" banner_10_1 "10.1,");
    reflexivity.
Defined.

(* ===================================================================== *)
(** ** Assembling the targets *)
(* ===================================================================== *)

Lemma new_list_run (items : list string) (st : state) :
  new_list items st
  = (Ok (List.length (heap st)),
     {| heap := heap st ++ [OList items]; stdout := stdout st |}).
Proof. reflexivity. Qed.

Lemma new_dict_run (fields : gmap string loc) (st : state) :
  new_dict fields st
  = (Ok (List.length (heap st)),
     {| heap := heap st ++ [ODict fields]; stdout := stdout st |}).
Proof. reflexivity. Qed.

Lemma read_list_run (l : loc) (st : state) :
  read_list l st
  = match heap st !! l with
    | Some (OList items) => (Ok items, st)
    | _ => (Raise TypeError, st)
    end.
Proof. reflexivity. Qed.

Lemma read_dict_run (l : loc) (st : state) :
  read_dict l st
  = match heap st !! l with
    | Some (ODict fields) => (Ok fields, st)
    | _ => (Raise TypeError, st)
    end.
Proof. reflexivity. Qed.

Lemma list_extend_run (l : loc) (more : list string) (st : state) :
  list_extend l more st
  = match heap st !! l with
    | Some (OList items) =>
        (Ok tt, {| heap := <[l := OList (items ++ more)]> (heap st);
                   stdout := stdout st |})
    | _ => (Raise TypeError, st)
    end.
Proof. reflexivity. Qed.

Lemma CUDAExtension_run (name : string) (srcs args : loc) (st : state) :
  CUDAExtension name srcs args st
  = (Ok {| ext_name := name; sources := srcs; extra_compile_args := args |}, st).
Proof. reflexivity. Qed.

Lemma args_cxx (c n : loc) :
  ({[ "cxx" := c; "nvcc" := n ]} : gmap string loc) !! "cxx" = Some c.
Proof. apply lookup_insert_eq. Qed.

Lemma args_nvcc (c n : loc) :
  ({[ "cxx" := c; "nvcc" := n ]} : gmap string loc) !! "nvcc" = Some n.
Proof.
  rewrite lookup_insert_ne by discriminate. apply lookup_singleton_eq.
Qed.

(** One step of the script: the first call is run and its result passed
    on. *)
Ltac run_step :=
  first [ rewrite run_bind
        | rewrite collect_sources_run
        | rewrite get_arch_flags_run
        | rewrite new_list_run
        | rewrite new_dict_run
        | rewrite read_list_run
        | rewrite read_dict_run
        | rewrite list_extend_run
        | rewrite CUDAExtension_run
        | rewrite run_ret
        | rewrite args_cxx
        | rewrite args_nvcc ];
  cbv beta iota;
  cbn [heap stdout init_state List.length app lookup list_lookup
       insert list_insert sources extra_compile_args ext_name dict_get].

Lemma build_extensions_run (w : World) :
  build_extensions w init_state = (Ok [qattn_ext; fused_ext], built_state w).
Proof.
  unfold build_extensions, build_qattn, build_fused.
  repeat run_step. reflexivity.
Qed.

Lemma read_target_qattn (w : World) (nq nf : list string) :
  read_target qattn_ext (state_with w nq nf)
  = (Ok (qattn_target w nq), state_with w nq nf).
Proof. unfold read_target, state_with, heap_with. repeat run_step. reflexivity. Qed.

Lemma read_target_fused (w : World) (nq nf : list string) :
  read_target fused_ext (state_with w nq nf)
  = (Ok (fused_target w nf), state_with w nq nf).
Proof. unfold read_target, state_with, heap_with. repeat run_step. reflexivity. Qed.

Lemma extend_nvcc_qattn (w : World) (nq nf more : list string) :
  extend_nvcc more qattn_ext (state_with w nq nf)
  = (Ok tt, state_with w (nq ++ more) nf).
Proof. unfold extend_nvcc, state_with, heap_with. repeat run_step. reflexivity. Qed.

Lemma extend_nvcc_fused (w : World) (nq nf more : list string) :
  extend_nvcc more fused_ext (state_with w nq nf)
  = (Ok tt, state_with w nq (nf ++ more)).
Proof. unfold extend_nvcc, state_with, heap_with. repeat run_step. reflexivity. Qed.

Lemma read_targets_run (w : World) (nq nf : list string) :
  read_targets [qattn_ext; fused_ext] (state_with w nq nf)
  = (Ok [qattn_target w nq; fused_target w nf], state_with w nq nf).
Proof.
  cbn [read_targets].
  rewrite run_bind, read_target_qattn. cbv beta iota.
  rewrite run_bind, run_bind, read_target_fused. cbv beta iota.
  reflexivity.
Qed.

Lemma list_locations_built (w : World) (nq nf : list string) :
  list_locations (state_with w nq nf) qattn_ext = Some [1; 2; 4]
  ∧ list_locations (state_with w nq nf) fused_ext = Some [6; 7; 9].
Proof.
  unfold list_locations, state_with, heap_with.
  cbn [heap extra_compile_args qattn_ext fused_ext lookup list_lookup sources].
  rewrite !args_cxx, !args_nvcc. split; reflexivity.
Qed.

Lemma platform_override_run (w : World) :
  platform_override w [qattn_ext; fused_ext] (built_state w)
  = if String.eqb (sys_platform w) "win32"
    then (Ok {[ "triton" := ["triton-windows>=3.3.1"] ]},
          state_with w (qattn_nvcc w ++ windows_nvcc_args)
                       (fused_nvcc w ++ windows_nvcc_args))
    else (Ok {[ "triton" := ["triton>=3.2.0"] ]}, built_state w).
Proof.
  unfold platform_override.
  destruct (String.eqb (sys_platform w) "win32"); [|reflexivity].
  cbn [for_each]. unfold built_state.
  rewrite run_bind, run_bind, extend_nvcc_qattn. cbv beta iota.
  rewrite run_bind, extend_nvcc_fused. cbv beta iota.
  reflexivity.
Qed.

(* ===================================================================== *)
(** ** Where the sources of the two targets lie *)
(* ===================================================================== *)

Lemma str_descend_two (a b : string) (ps names : list string) :
  names ≠ [] →
  ∃ rest, str (descend {| root := ""; parts := a :: b :: ps |} names)
          = a +:+ "/" +:+ b +:+ "/" +:+ rest.
Proof.
  intros Hne. unfold str, descend. cbn [root parts app].
  destruct (ps ++ names) as [|x l] eqn:Hl.
  - apply app_eq_nil in Hl as [_ ->]. congruence.
  - eexists. cbn [String.concat]. reflexivity.
Qed.

Lemma found_under_names (w : World) (src_dir s : string) :
  found_under w src_dir s →
  ∃ names, names ≠ [] ∧ s = str (descend (parse_path src_dir) names).
Proof.
  intros (n & es & names & c & _ & _ & Hr & _ & _ & _ & ->).
  exists names. split; [eapply reach_nonempty, Hr|reflexivity].
Qed.

Lemma qattn_sources_prefix (w : World) (s : string) :
  In s (qattn_sources w) → ∃ rest, s = "csrc/qattn/" +:+ rest.
Proof.
  unfold qattn_sources, qattn_found, qattn_roots. cbn [map List.concat].
  intros [<-|Hin]; [exists "pybind.cpp"; reflexivity|].
  rewrite !List.in_app_iff in Hin.
  destruct Hin as [Hin|[Hin|[Hin|[]]]];
    apply root_sources_found, found_under_names in Hin as (names & Hne & ->).
  - destruct (str_descend_two "csrc" "qattn" [] names Hne) as [rest Hrest].
    exists rest. exact Hrest.
  - destruct (str_descend_two "csrc" "qattn" ["instantiations_sm80"] names Hne)
      as [rest Hrest].
    exists rest. exact Hrest.
  - destruct (str_descend_two "csrc" "qattn" ["instantiations_sm89"] names Hne)
      as [rest Hrest].
    exists rest. exact Hrest.
Qed.

Lemma fused_sources_prefix (w : World) (s : string) :
  In s (fused_sources w) → ∃ rest, s = "csrc/fused/" +:+ rest.
Proof.
  unfold fused_sources. cbn [map List.concat]. rewrite app_nil_r.
  intros Hin.
  apply root_sources_found, found_under_names in Hin as (names & Hne & ->).
  destruct (str_descend_two "csrc" "fused" [] names Hne) as [rest Hrest].
  exists rest. exact Hrest.
Qed.

Lemma sources_disjoint (w : World) (s : string) :
  In s (qattn_sources w) → ¬ In s (fused_sources w).
Proof.
  intros Hq Hf.
  apply qattn_sources_prefix in Hq as [r1 ->].
  apply fused_sources_prefix in Hf as [r2 Hf].
  discriminate Hf.
Qed.

(** C7. The two targets are [_qattn], with the sources found under
    [csrc/qattn] and its two instantiation directories after
    [csrc/qattn/pybind.cpp], and [_fused], with the sources found under
    [csrc/fused]. No path is a source of both. Their source, cxx and nvcc
    lists are six different objects, their argument dicts two different
    objects, and the lists that the two calls of [get_arch_flags] return
    are two more. Extending the nvcc list of one target changes that list
    only: the other target, and the sources and cxx arguments of the
    first, read as before. *)
Theorem C7_independent_targets (w : World) :
  build_extensions w init_state = (Ok [qattn_ext; fused_ext], built_state w)
  ∧ read_target qattn_ext (built_state w)
    = (Ok (qattn_target w (qattn_nvcc w)), built_state w)
  ∧ read_target fused_ext (built_state w)
    = (Ok (fused_target w (fused_nvcc w)), built_state w)
  ∧ (∀ s : string, In s (qattn_sources w) → ¬ In s (fused_sources w))
  ∧ (∃ lq lf : list loc,
       list_locations (built_state w) qattn_ext = Some lq
       ∧ list_locations (built_state w) fused_ext = Some lf
       ∧ List.NoDup (lq ++ lf)
       ∧ extra_compile_args qattn_ext ≠ extra_compile_args fused_ext)
  ∧ (∀ more : list string,
       ∃ st' : state,
         extend_nvcc more qattn_ext (built_state w) = (Ok tt, st')
         ∧ read_target qattn_ext st'
           = (Ok (qattn_target w (qattn_nvcc w ++ more)), st')
         ∧ read_target fused_ext st'
           = (Ok (fused_target w (fused_nvcc w)), st'))
  ∧ (∀ more : list string,
       ∃ st' : state,
         extend_nvcc more fused_ext (built_state w) = (Ok tt, st')
         ∧ read_target fused_ext st'
           = (Ok (fused_target w (fused_nvcc w ++ more)), st')
         ∧ read_target qattn_ext st'
           = (Ok (qattn_target w (qattn_nvcc w)), st')).
Proof.
  split; [apply build_extensions_run|].
  split; [apply read_target_qattn|].
  split; [apply read_target_fused|].
  split; [apply sources_disjoint|].
  split.
  { exists [1; 2; 4], [6; 7; 9].
    destruct (list_locations_built w (qattn_nvcc w) (fused_nvcc w)) as [Hq Hf].
    split; [exact Hq|]. split; [exact Hf|].
    split; [|discriminate].
    cbn [app]. repeat constructor; cbn; intuition discriminate. }
  split.
  - intros more. eexists. split; [apply extend_nvcc_qattn|].
    split; [apply read_target_qattn|apply read_target_fused].
  - intros more. eexists. split; [apply extend_nvcc_fused|].
    split; [apply read_target_fused|apply read_target_qattn].
Qed.

(** C6. On [win32] the override appends ["-Xcompiler=/MD"] and
    ["-Xcompiler=/wd4819"] to the end of the nvcc list of each of the two
    targets, changes nothing else, and sets the extras to
    [{"triton": ["triton-windows>=3.3.1"]}]. On any other platform it
    changes nothing and sets the extras to [{"triton": ["triton>=3.2.0"]}]. *)
Theorem C6_platform_override (w : World) :
  (sys_platform w = "win32" →
   ∃ st' : state,
     platform_override w [qattn_ext; fused_ext] (built_state w)
     = (Ok {[ "triton" := ["triton-windows>=3.3.1"] ]}, st')
     ∧ read_targets [qattn_ext; fused_ext] st'
       = (Ok [qattn_target w (qattn_nvcc w
                                ++ ["-Xcompiler=/MD"; "-Xcompiler=/wd4819"]);
              fused_target w (fused_nvcc w
                                ++ ["-Xcompiler=/MD"; "-Xcompiler=/wd4819"])],
          st')
     ∧ stdout st' = stdout (built_state w))
  ∧ (sys_platform w ≠ "win32" →
     platform_override w [qattn_ext; fused_ext] (built_state w)
     = (Ok {[ "triton" := ["triton>=3.2.0"] ]}, built_state w))
  ∧ build_extensions w init_state = (Ok [qattn_ext; fused_ext], built_state w)
  ∧ read_targets [qattn_ext; fused_ext] (built_state w)
    = (Ok [qattn_target w (qattn_nvcc w); fused_target w (fused_nvcc w)],
       built_state w).
Proof.
  split; [|split; [|split]].
  - intros Hwin. eexists. rewrite platform_override_run, Hwin.
    cbn [String.eqb Ascii.eqb Bool.eqb andb].
    split; [reflexivity|]. split; [apply read_targets_run|reflexivity].
  - intros Hnot. rewrite platform_override_run.
    destruct (String.eqb_spec (sys_platform w) "win32"); [contradiction|].
    reflexivity.
  - apply build_extensions_run.
  - apply read_targets_run.
Qed.

Lemma C6_platform_override_witness :
  (sys_platform (toolchain_world banner_12_0 kernel_tree "win32") = "win32"
   ∧ ∃ st' : state,
       platform_override (toolchain_world banner_12_0 kernel_tree "win32")
         [qattn_ext; fused_ext]
         (built_state (toolchain_world banner_12_0 kernel_tree "win32"))
       = (Ok {[ "triton" := ["triton-windows>=3.3.1"] ]}, st')
       ∧ read_targets [qattn_ext; fused_ext] st'
         = (Ok [qattn_target (toolchain_world banner_12_0 kernel_tree "win32")
                  (qattn_nvcc (toolchain_world banner_12_0 kernel_tree "win32")
                     ++ ["-Xcompiler=/MD"; "-Xcompiler=/wd4819"]);
                fused_target (toolchain_world banner_12_0 kernel_tree "win32")
                  (fused_nvcc (toolchain_world banner_12_0 kernel_tree "win32")
                     ++ ["-Xcompiler=/MD"; "-Xcompiler=/wd4819"])],
            st')
       ∧ stdout st'
         = stdout (built_state (toolchain_world banner_12_0 kernel_tree "win32")))
  ∧ (sys_platform (toolchain_world banner_12_0 kernel_tree "linux") ≠ "win32"
     ∧ platform_override (toolchain_world banner_12_0 kernel_tree "linux")
         [qattn_ext; fused_ext]
         (built_state (toolchain_world banner_12_0 kernel_tree "linux"))
       = (Ok {[ "triton" := ["triton>=3.2.0"] ]},
          built_state (toolchain_world banner_12_0 kernel_tree "linux"))).
Proof.
  split.
  - split; [reflexivity|].
    apply (proj1 (C6_platform_override
                    (toolchain_world banner_12_0 kernel_tree "win32"))).
    reflexivity.
  - assert (Hne : sys_platform (toolchain_world banner_12_0 kernel_tree "linux")
                  ≠ "win32") by discriminate.
    split; [exact Hne|].
    apply (proj1 (proj2 (C6_platform_override
                           (toolchain_world banner_12_0 kernel_tree "linux")))).
    exact Hne.
Defined.

(* ===================================================================== *)
(** ** The call of [setup] *)
(* ===================================================================== *)

Lemma open_read_missing (w : World) (path : string) (st : state) :
  path_exists w (parse_path path) = false →
  open_read w path st = (Raise (FileNotFoundError path), st).
Proof.
  unfold path_exists, open_read, node_exists. intros Hex.
  destruct (resolve w (parse_path path)) as [n|]; [|reflexivity].
  destruct (follow n); try discriminate. reflexivity.
Qed.

Lemma platform_override_ok (w : World) :
  ∃ extras st,
    platform_override w [qattn_ext; fused_ext] (built_state w) = (Ok extras, st).
Proof.
  rewrite platform_override_run.
  destruct (String.eqb (sys_platform w) "win32"); eauto.
Qed.

(** C8. When [README.md] does not exist in the working directory the
    script never reaches [setup]: it ends with an exception. Once
    validation has passed, that exception is [FileNotFoundError] with the
    path [README.md]. *)
Theorem C8_missing_readme {PKG : Packaging} (w : World) :
  path_exists w (parse_path "README.md") = false →
  (∀ (g : BuildGraph) (st : state), run_setup w ≠ (Ok g, st))
  ∧ (∃ (e : exn) (st : state), run_setup w = (Raise e, st))
  ∧ (validate_cuda_installation w init_state = (Ok tt, init_state) →
     ∃ st : state, run_setup w = (Raise (FileNotFoundError "README.md"), st)).
Proof.
  intros Hmissing.
  assert (Hrun : validate_cuda_installation w init_state = (Ok tt, init_state) →
                 ∃ st, run_setup w = (Raise (FileNotFoundError "README.md"), st)).
  { intros Hok. unfold run_setup, setup_py.
    rewrite run_bind, Hok. cbv beta iota.
    rewrite run_bind, build_extensions_run. cbv beta iota.
    destruct (platform_override_ok w) as (extras & st & Hov).
    rewrite run_bind, Hov. cbv beta iota.
    rewrite run_bind, (open_read_missing w "README.md" st Hmissing).
    eauto. }
  assert (Hraise : ∃ e st, run_setup w = (Raise e, st)).
  { destruct (validate_total w init_state) as [Hok|[e He]].
    - destruct (Hrun Hok) as [st Hst]. eauto.
    - exists e, init_state. unfold run_setup, setup_py.
      rewrite run_bind, He. reflexivity. }
  split; [|split; [exact Hraise|exact Hrun]].
  intros g st Hg. destruct Hraise as (e & st' & He). congruence.
Qed.

Lemma C8_missing_readme_witness :
  path_exists (toolchain_world banner_12_0 kernel_tree "linux")
    (parse_path "README.md") = false
  ∧ ∃ st : state,
      run_setup (PKG := release_versions)
        (toolchain_world banner_12_0 kernel_tree "linux")
      = (Raise (FileNotFoundError "README.md"), st).
Proof.
  split; [reflexivity|].
  apply (proj2 (proj2 (C8_missing_readme (PKG := release_versions)
                         (toolchain_world banner_12_0 kernel_tree "linux")
                         eq_refl))).
  reflexivity.
Defined.

(* ===================================================================== *)
(** ** Sources listed more than once *)
(* ===================================================================== *)

Lemma lookup_entry_In (nm : string) (es : list (string * node)) (c : node) :
  lookup_entry nm es = Some c → In (nm, c) es.
Proof.
  induction es as [|[nm' c'] es IH]; cbn [lookup_entry]; [discriminate|].
  destruct (String.eqb_spec nm' nm) as [->|_].
  - intros [= ->]. left. reflexivity.
  - intros Hl. right. apply IH, Hl.
Qed.

Lemma walk_snoc (names : list string) :
  ∀ (n : node) (nm : string) (c : node),
    walk n (names ++ [nm]) = Some c →
    ∃ m es, walk n names = Some m ∧ follow m = Dir es
            ∧ lookup_entry nm es = Some c.
Proof.
  induction names as [|x names IH]; intros n nm c; cbn [app walk].
  - destruct (follow n) as [?|es|?| |?] eqn:Hn; try discriminate.
    destruct (lookup_entry nm es) as [c'|] eqn:Hl; [|discriminate].
    intros [= ->]. exists n, es. auto.
  - destruct (follow n) as [?|es|?| |?]; try discriminate.
    destruct (lookup_entry x es) as [c'|]; [|discriminate].
    apply IH.
Qed.

(** What is found under a real subdirectory of [csrc/qattn] is also found
    under [csrc/qattn]. *)
Lemma found_under_parent (w : World) (nm s : string) (sub : list (string * node)) :
  String.eqb nm ".." = false →
  walk (cwd w) ["csrc"; "qattn"; nm] = Some (Dir sub) →
  parse_path ("csrc/qattn/" +:+ nm)
  = {| root := ""; parts := ["csrc"; "qattn"; nm] |} →
  found_under w ("csrc/qattn/" +:+ nm) s →
  found_under w "csrc/qattn" s.
Proof.
  intros Hdots Hwalk Hparse
         (n & es & names & c & Hres & Hn & Hr & Hs & Hdot & Hfile & ->).
  rewrite Hparse in *.
  unfold resolve, inside in Hres. cbn [root parts nonempty negb forallb andb] in Hres.
  rewrite Hdots in Hres. cbn [negb andb] in Hres.
  rewrite Hwalk in Hres. injection Hres as <-. cbn [follow] in Hn.
  injection Hn as <-.
  destruct (walk_snoc ["csrc"; "qattn"] (cwd w) nm (Dir sub) Hwalk)
    as (m & es & Hm & Hfm & Hl).
  exists m, es, (nm :: names), c.
  split; [exact Hm|]. split; [exact Hfm|].
  split; [eapply reach_sub; [apply lookup_entry_In, Hl|exact Hr]|].
  rewrite last_cons_nonempty by (eapply reach_nonempty, Hr).
  repeat split; auto.
Qed.

Lemma count_occ_In_pos (l : list string) (s : string) :
  In s l → 1 ≤ count_occ string_dec l s.
Proof. intros Hin. apply (count_occ_In string_dec) in Hin. lia. Qed.

Lemma qattn_sources_twice (w : World) (dir s : string) (sub : list (string * node)) :
  dir = "csrc/qattn/instantiations_sm80" ∨ dir = "csrc/qattn/instantiations_sm89" →
  resolve w (parse_path dir) = Some (Dir sub) →
  found_under w dir s →
  2 ≤ count_occ string_dec (qattn_sources w) s.
Proof.
  intros Hdir Hres Hfound.
  assert (Hparent : found_under w "csrc/qattn" s).
  { destruct Hdir as [-> | ->].
    - apply (found_under_parent w "instantiations_sm80" s sub);
        try reflexivity; [exact Hres|exact Hfound].
    - apply (found_under_parent w "instantiations_sm89" s sub);
        try reflexivity; [exact Hres|exact Hfound]. }
  apply root_sources_found, count_occ_In_pos in Hparent.
  apply root_sources_found, count_occ_In_pos in Hfound.
  unfold qattn_sources, qattn_found, qattn_roots. cbn [map List.concat].
  cbn [count_occ].
  destruct (string_dec "csrc/qattn/pybind.cpp" s);
    rewrite !count_occ_app; destruct Hdir as [-> | ->]; lia.
Qed.

(** C9, as the code has it. Let one of the two instantiation directories
    be a directory proper (not a link to one). Then every path found
    under it (a regular file below it whose name ends in [.cu] and does
    not start with a dot) occurs at least twice among the sources of the
    [_qattn] target: once from the scan of [csrc/qattn], once from the
    scan of the directory itself. *)
Theorem C9_instantiations_listed_twice (w : World) (dir s : string) :
  dir = "csrc/qattn/instantiations_sm80"
  ∨ dir = "csrc/qattn/instantiations_sm89" →
  (∃ sub, resolve w (parse_path dir) = Some (Dir sub)) →
  found_under w dir s →
  ∃ t : Target,
    build_extensions w init_state = (Ok [qattn_ext; fused_ext], built_state w)
    ∧ read_target qattn_ext (built_state w) = (Ok t, built_state w)
    ∧ 2 ≤ count_occ string_dec (target_sources t) s.
Proof.
  intros Hdir [sub Hres] Hfound.
  exists (qattn_target w (qattn_nvcc w)).
  split; [apply build_extensions_run|].
  split; [apply read_target_qattn|].
  cbn [target_sources qattn_target].
  eapply qattn_sources_twice; eauto.
Qed.

Lemma C9_instantiations_listed_twice_witness :
  ∃ t : Target,
    build_extensions (world_of kernel_tree) init_state
    = (Ok [qattn_ext; fused_ext], built_state (world_of kernel_tree))
    ∧ read_target qattn_ext (built_state (world_of kernel_tree))
      = (Ok t, built_state (world_of kernel_tree))
    ∧ 2 ≤ count_occ string_dec (target_sources t)
            "csrc/qattn/instantiations_sm80/k.cu".
Proof.
  apply (C9_instantiations_listed_twice (world_of kernel_tree)
           "csrc/qattn/instantiations_sm80"
           "csrc/qattn/instantiations_sm80/k.cu").
  - left. reflexivity.
  - exists [("k.cu", File "")]. reflexivity.
  - apply root_sources_found. vm_compute. left. reflexivity.
Defined.

(** C9, as stated, fails for a hidden file: [.k.cu] is a regular file in
    [csrc/qattn/instantiations_sm80] whose name ends in [.cu], and its
    path is not among the sources of [_qattn] at all. *)
Lemma C9_hidden_kernel_not_listed :
  resolve (world_of hidden_kernel_tree)
    (parse_path "csrc/qattn/instantiations_sm80/.k.cu") = Some (File "")
  ∧ endswith ".cu" ".k.cu" = true
  ∧ qattn_sources (world_of hidden_kernel_tree) = ["csrc/qattn/pybind.cpp"]
  ∧ count_occ string_dec (qattn_sources (world_of hidden_kernel_tree))
      "csrc/qattn/instantiations_sm80/.k.cu" = 0.
Proof. vm_compute. repeat split; reflexivity. Qed.

(* ===================================================================== *)
(** ** [configure_for_windows] *)
(* ===================================================================== *)

Lemma expandvars_triton (env : gmap string string) :
  expandvars env "%LOCALAPPDATA%\triton_cache"
  = default "%LOCALAPPDATA%" (env !! "LOCALAPPDATA") +:+ "\triton_cache".
Proof. reflexivity. Qed.

(** C10, as the code has it. When [platform.system()] is not ["Windows"],
    [configure_for_windows] returns [None] and [os.environ] is unchanged.
    When it is, [TRITON_CACHE_DIR] is set to the expansion of
    [%LOCALAPPDATA%\triton_cache]; provided [PATH] and [CUDA_PATH] are
    both set, the function returns [None] with [;<CUDA_PATH>\bin]
    appended to [PATH] and nothing else changed. *)
Theorem C10_configure_for_windows :
  (∀ (system : string) (env : gmap string string),
     system ≠ "Windows" →
     configure_for_windows system env = (Ok tt, env))
  ∧ (∀ (env : gmap string string) (path cuda_path : string),
       env !! "PATH" = Some path →
       env !! "CUDA_PATH" = Some cuda_path →
       ∃ env' : gmap string string,
         configure_for_windows "Windows" env = (Ok tt, env')
         ∧ env' !! "TRITON_CACHE_DIR"
           = Some (default "%LOCALAPPDATA%" (env !! "LOCALAPPDATA")
                   +:+ "\triton_cache")
         ∧ env' !! "PATH" = Some (path +:+ ";" +:+ cuda_path +:+ "\bin")
         ∧ ∀ key : string,
             key ≠ "TRITON_CACHE_DIR" → key ≠ "PATH" →
             env' !! key = env !! key)
  ∧ (∀ env : gmap string string,
       (configure_for_windows "Windows" env).2 !! "TRITON_CACHE_DIR"
       = Some (default "%LOCALAPPDATA%" (env !! "LOCALAPPDATA")
               +:+ "\triton_cache")).
Proof.
  split; [|split].
  - intros system env Hsys. unfold configure_for_windows.
    destruct (String.eqb_spec system "Windows"); [contradiction|reflexivity].
  - intros env path cuda_path Hpath Hcuda. unfold configure_for_windows.
    cbn [String.eqb Ascii.eqb Bool.eqb andb]. unfold environ_get.
    rewrite lookup_insert_ne by discriminate. rewrite Hpath.
    rewrite lookup_insert_ne by discriminate. rewrite Hcuda.
    eexists. split; [reflexivity|].
    split.
    { rewrite lookup_insert_ne by discriminate.
      rewrite lookup_insert_eq, expandvars_triton. reflexivity. }
    split; [apply lookup_insert_eq|].
    intros key Ht Hp. rewrite !lookup_insert_ne by congruence. reflexivity.
  - intros env. unfold configure_for_windows.
    cbn [String.eqb Ascii.eqb Bool.eqb andb].
    destruct (environ_get _ "PATH") as [path|e]; cbn [snd].
    + destruct (environ_get _ "CUDA_PATH") as [cuda_path|e]; cbn [snd].
      * rewrite lookup_insert_ne by discriminate.
        rewrite lookup_insert_eq, expandvars_triton. reflexivity.
      * rewrite lookup_insert_eq, expandvars_triton. reflexivity.
    + rewrite lookup_insert_eq, expandvars_triton. reflexivity.
Qed.

Lemma C10_configure_for_windows_witness :
  ("Linux" ≠ "Windows"
   ∧ configure_for_windows "Linux" windows_environ = (Ok tt, windows_environ))
  ∧ ∃ env' : gmap string string,
      configure_for_windows "Windows" windows_environ = (Ok tt, env')
      ∧ env' !! "TRITON_CACHE_DIR"
        = Some (default "%LOCALAPPDATA%" (windows_environ !! "LOCALAPPDATA")
                +:+ "\triton_cache")
      ∧ env' !! "PATH" = Some ("C:\Windows" +:+ ";" +:+ "C:\CUDA\v12.0" +:+ "\bin")
      ∧ ∀ key : string,
          key ≠ "TRITON_CACHE_DIR" → key ≠ "PATH" →
          env' !! key = windows_environ !! key.
Proof.
  split.
  - assert (Hne : "Linux" ≠ "Windows") by discriminate.
    split; [exact Hne|].
    apply (proj1 C10_configure_for_windows "Linux" windows_environ Hne).
  - apply (proj1 (proj2 C10_configure_for_windows) windows_environ
             "C:\Windows" "C:\CUDA\v12.0"); reflexivity.
Defined.

(** C10, as stated, fails on Windows when [CUDA_PATH] is not set: the
    function raises [KeyError] instead of returning, and [PATH] is left
    as it was, nothing appended. *)
Lemma C10_cuda_path_unset_raises :
  (configure_for_windows "Windows" {[ "PATH" := "C:\Windows" ]}).1
  = Raise (KeyError "CUDA_PATH")
  ∧ (configure_for_windows "Windows" {[ "PATH" := "C:\Windows" ]}).2 !! "PATH"
    = Some "C:\Windows"
  ∧ (configure_for_windows "Windows" {[ "PATH" := "C:\Windows" ]}).2
      !! "TRITON_CACHE_DIR"
    = Some "%LOCALAPPDATA%\triton_cache".
Proof. vm_compute. repeat split; reflexivity. Qed.

(* ===================================================================== *)
(** ** Further properties of [get_arch_flags] *)
(* ===================================================================== *)

Lemma split_by_cons (P : ascii → bool) (s : string) :
  ∃ h t, split_by P s = h :: t.
Proof. destruct (split_by_before P s) as [t Ht]. eauto. Qed.

Lemma split_by_app_sep (P : ascii → bool) (a b : string) (c : ascii) :
  P c = true →
  split_by P (a +:+ String c b) = split_by P a ++ split_by P b.
Proof.
  intros Hc. induction a as [|d a IH].
  - change ("" +:+ String c b) with (String c b).
    cbn [split_by app]. rewrite Hc. reflexivity.
  - change (String d a +:+ String c b) with (String d (a +:+ String c b)).
    cbn [split_by]. rewrite IH.
    destruct (P d); [reflexivity|].
    destruct (split_by_cons P a) as (h & t & ->). reflexivity.
Qed.

Lemma arch_tokens_insert (environ : gmap string string) (v : string) :
  arch_tokens (<[ARCH_KEY := v]> environ)
  = tokens_split_at space_or_semicolon v.
Proof.
  unfold arch_tokens, compute_capabilities, tokens_split_at, ARCH_KEY.
  rewrite lookup_insert_eq, split_replace_space. reflexivity.
Qed.

Lemma space_or_semicolon_iff (c : ascii) :
  space_or_semicolon c = true ↔ c = " "%char ∨ c = ";"%char.
Proof.
  unfold space_or_semicolon. rewrite orb_true_iff, !Ascii.eqb_eq. tauto.
Qed.

(** X1. Two architecture lists joined by a space or a semicolon give the
    flags of the first followed by the flags of the second, and likewise
    for the warnings. *)
Theorem arch_lists_concatenate
    (environ : gmap string string) (a b : string) (c : ascii) (st : state) :
  c = " "%char ∨ c = ";"%char →
  get_arch_flags (<[ARCH_KEY := a +:+ String c b]> environ) st
  = (Ok (List.length (heap st)),
     {| heap := heap st
                ++ [OList (arch_flags_of (arch_tokens (<[ARCH_KEY := a]> environ))
                           ++ arch_flags_of (arch_tokens (<[ARCH_KEY := b]> environ)))];
        stdout := stdout st
                  ++ arch_warnings_of (arch_tokens (<[ARCH_KEY := a]> environ))
                  ++ arch_warnings_of (arch_tokens (<[ARCH_KEY := b]> environ)) |}).
Proof.
  intros Hc. apply space_or_semicolon_iff in Hc.
  rewrite get_arch_flags_run, !arch_tokens_insert.
  unfold tokens_split_at. rewrite (split_by_app_sep _ a b c Hc).
  rewrite List.filter_app, arch_flags_of_app, arch_warnings_of_app.
  reflexivity.
Qed.

Lemma arch_lists_concatenate_witness :
  get_arch_flags (<[ARCH_KEY := "9.9 8.0" +:+ String ";" "8.6"]> ∅) init_state
  = (Ok 0,
     {| heap := [OList (arch_flags_of (arch_tokens (<[ARCH_KEY := "9.9 8.0"]> ∅))
                        ++ arch_flags_of (arch_tokens (<[ARCH_KEY := "8.6"]> ∅)))];
        stdout := arch_warnings_of (arch_tokens (<[ARCH_KEY := "9.9 8.0"]> ∅))
                  ++ arch_warnings_of (arch_tokens (<[ARCH_KEY := "8.6"]> ∅)) |}).
Proof.
  apply (arch_lists_concatenate ∅ "9.9 8.0" "8.6" ";" init_state).
  right. reflexivity.
Defined.

Lemma arch_flags_of_length (tokens : list string) :
  List.length (arch_flags_of tokens)
  = 2 * List.length (List.filter supported tokens).
Proof.
  unfold arch_flags_of.
  induction (List.filter supported tokens) as [|t l IH]; [reflexivity|].
  cbn [map List.concat]. rewrite List.length_app, IH. cbn [gencode List.length].
  lia.
Qed.

(** X2. Every token is accounted for: it gives two flags or one warning. The
    list returned has twice as many elements as there are supported
    tokens, and as many warnings are printed as there are other tokens. *)
Theorem arch_tokens_accounted (environ : gmap string string) (st : state) :
  ∃ (flags warnings : list string),
    get_arch_flags environ st
    = (Ok (List.length (heap st)),
       {| heap := heap st ++ [OList flags];
          stdout := stdout st ++ warnings |})
    ∧ List.length flags
      = 2 * List.length (List.filter supported (arch_tokens environ))
    ∧ List.length flags + 2 * List.length warnings
      = 2 * List.length (arch_tokens environ).
Proof.
  exists (arch_flags_of (arch_tokens environ)),
         (arch_warnings_of (arch_tokens environ)).
  split; [apply get_arch_flags_run|].
  split; [apply arch_flags_of_length|].
  rewrite arch_flags_of_length. unfold arch_warnings_of.
  rewrite List.length_map.
  pose proof (List.filter_length supported (arch_tokens environ)). lia.
Qed.

(** X3. Whatever [TORCH_CUDA_ARCH_LIST] holds, the list returned is made of
    ["-gencode"] and the four [arch=compute_..,code=sm_..] options for
    80, 86, 89 and 90; nothing of the input reaches the compiler
    otherwise. *)
Theorem arch_flags_vocabulary (environ : gmap string string) (st : state) :
  ∃ flags : list string,
    (get_arch_flags environ st).2.(heap) !! List.length (heap st)
    = Some (OList flags)
    ∧ ∀ flag : string,
        In flag flags →
        In flag ["-gencode";
                 "arch=compute_80,code=sm_80"; "arch=compute_86,code=sm_86";
                 "arch=compute_89,code=sm_89"; "arch=compute_90,code=sm_90"].
Proof.
  exists (arch_flags_of (arch_tokens environ)).
  rewrite get_arch_flags_run. cbn [snd heap].
  split; [apply lookup_last|].
  unfold arch_flags_of. intros flag Hin.
  apply List.in_concat in Hin as (pair & Hpair & Hin).
  apply List.in_map_iff in Hpair as (t & <- & Ht).
  apply List.filter_In in Ht as [_ Ht].
  apply supported_iff in Ht as [-> | [-> | [-> | ->]]];
    cbn in Hin; cbn; intuition.
Qed.

(* ===================================================================== *)
(** ** Further properties of [validate_cuda_installation] *)
(* ===================================================================== *)

Lemma second_to_last_None (l : list string) :
  second_to_last l = None ↔ List.length l < 2.
Proof.
  unfold second_to_last. rewrite <- (List.length_rev l).
  destruct (rev l) as [|a [|b r]]; cbn [List.length]; split;
    intros; try reflexivity; try discriminate; lia.
Qed.

(** X4. The token cannot be taken, and [IndexError] is raised, exactly when
    the output of the query has fewer than two fields; an empty output
    and an output of blanks are such. *)
Theorem version_token_needs_two_fields (out : string) (st : state) :
  (version_token out st = (Raise IndexError, st)
   ↔ List.length (split_ws out) < 2)
  ∧ (2 ≤ List.length (split_ws out) →
     ∃ token, version_token out st = (Ok token, st)).
Proof.
  rewrite version_token_run, <- second_to_last_None.
  destruct (second_to_last (split_ws out)) as [field|] eqn:Hs.
  - split.
    + split; [intros [=]|discriminate].
    + eauto.
  - split; [tauto|].
    intros Hlen. apply second_to_last_None in Hs. lia.
Qed.

Lemma version_token_needs_two_fields_witness :
  ∃ token, version_token "release 12.4, V12.4.131" init_state
           = (Ok token, init_state).
Proof.
  apply (proj2 (version_token_needs_two_fields "release 12.4, V12.4.131"
                  init_state)).
  vm_compute. lia.
Defined.

Lemma before_keeps_free (P Q : ascii → bool) (s : string) :
  free_of Q s = true → free_of Q (before P s) = true.
Proof.
  induction s as [|c s IH]; cbn [before free_of]; [reflexivity|].
  intros Hq. apply andb_true_iff in Hq as [Hc Hs].
  destruct (P c); [reflexivity|]. cbn [free_of]. rewrite Hc. apply IH, Hs.
Qed.

Lemma before_of_free (P : ascii → bool) (s : string) :
  free_of P s = true → before P s = s.
Proof.
  induction s as [|c s IH]; cbn [before free_of]; [reflexivity|].
  intros Hp. apply andb_true_iff in Hp as [Hc Hs].
  apply negb_true_iff in Hc. rewrite Hc. f_equal. apply IH, Hs.
Qed.

Lemma second_to_last_In (l : list string) (x : string) :
  second_to_last l = Some x → In x l.
Proof.
  unfold second_to_last. intros Hs. apply List.in_rev.
  destruct (rev l) as [|a [|b r]]; try discriminate.
  injection Hs as <-. right. left. reflexivity.
Qed.

(** X5. The token that is parsed holds neither a comma nor whitespace; a
    field without a comma is taken whole. *)
Theorem version_token_clean (out token : string) (st : state) :
  version_token out st = (Ok token, st) →
  free_of (Ascii.eqb ",") token = true
  ∧ free_of isspace token = true
  ∧ ∃ field : string,
      second_to_last (split_ws out) = Some field
      ∧ (free_of (Ascii.eqb ",") field = true → token = field).
Proof.
  rewrite version_token_run.
  destruct (second_to_last (split_ws out)) as [field|] eqn:Hs; [|discriminate].
  intros [= <-]. split; [apply before_free|]. split.
  - apply before_keeps_free.
    pose proof (split_ws_fields out) as Hall.
    rewrite List.Forall_forall in Hall.
    apply (Hall field), second_to_last_In, Hs.
  - exists field. split; [reflexivity|]. apply before_of_free.
Qed.

Lemma version_token_clean_witness :
  free_of (Ascii.eqb ",") "12.4" = true
  ∧ free_of isspace "12.4" = true
  ∧ ∃ field : string,
      second_to_last (split_ws "release 12.4, V12.4.131") = Some field
      ∧ (free_of (Ascii.eqb ",") field = true → "12.4" = field).
Proof.
  apply (version_token_clean "release 12.4, V12.4.131" "12.4" init_state).
  reflexivity.
Defined.

Lemma split_by_free_whole (P : ascii → bool) (s : string) :
  free_of P s = true → split_by P s = [s].
Proof.
  induction s as [|c s IH]; cbn [split_by free_of]; [reflexivity|].
  intros Hp. apply andb_true_iff in Hp as [Hc Hs].
  apply negb_true_iff in Hc. rewrite Hc, (IH Hs). reflexivity.
Qed.

(** The fields of an output whose last line is [Build <id>]. *)
Lemma split_ws_build_line (body id : string) :
  nonempty id = true →
  free_of isspace id = true →
  split_ws (body +:+ String newline ("Build" +:+ String " " (id +:+ String newline "")))
  = split_ws body ++ ["Build"; id].
Proof.
  intros Hne Hfree. unfold split_ws.
  rewrite (split_by_app_sep isspace body _ newline eq_refl).
  rewrite (split_by_app_sep isspace "Build" _ " " eq_refl).
  rewrite (split_by_app_sep isspace id "" newline eq_refl).
  rewrite (split_by_free_whole isspace id Hfree).
  rewrite !List.filter_app. cbn [List.filter split_by isspace app].
  rewrite Hne. reflexivity.
Qed.

(** X6. When the output of [nvcc --version] ends with a line [Build <id>], as
    the banners of recent toolkits do, the second-to-last field is
    ["Build"]: validation raises [InvalidVersion], whatever release the
    banner names. *)
Theorem build_line_is_no_version {PKG : Packaging}
    (w : World) (st : state) (home body id : string) :
  CUDA_HOME w = Some home →
  path_exists w (nvcc_path_of home) = true →
  nvcc_query w (str (nvcc_path_of home))
  = Some (body +:+ String newline
                     ("Build" +:+ String " " (id +:+ String newline ""))) →
  nonempty id = true →
  free_of isspace id = true →
  parse "Build" = None →
  validate_cuda_installation w st = (Raise (InvalidVersion "Build"), st).
Proof.
  intros Hh Hex Hq Hne Hfree Hparse.
  rewrite validate_run, Hh, Hex, Hq. unfold version_check.
  rewrite (split_ws_build_line body id Hne Hfree), second_to_last_app.
  change (before_comma "Build") with "Build". rewrite Hparse. reflexivity.
Qed.

Lemma build_line_is_no_version_witness :
  validate_cuda_installation (PKG := release_versions)
    (toolchain_world banner_12_2 small_tree "linux") init_state
  = (Raise (InvalidVersion "Build"), init_state).
Proof.
  apply (build_line_is_no_version (PKG := release_versions)
           (toolchain_world banner_12_2 small_tree "linux") init_state
           "/usr/local/cuda"
           "nvcc: NVIDIA (R) Cuda compiler driver
Copyright (c) 2005-2023 NVIDIA Corporation
Built on Tue_Aug_15_22:02:13_PDT_2023
Cuda compilation tools, release 12.2, V12.2.140"
           "cuda_12.2.r12.2/compiler.33191640_0");
    reflexivity.
Defined.

(* ===================================================================== *)
(** ** Further properties of [collect_sources] *)
(* ===================================================================== *)


Lemma length_append (a b : string) :
  String.length (a +:+ b) = String.length a + String.length b.
Proof.
  induction a as [|x a IH]; [reflexivity|].
  change (String x a +:+ b) with (String x (a +:+ b)).
  cbn [String.length]. rewrite IH. reflexivity.
Qed.











(** X9. Only the name of the file itself is tested for a leading dot: a
    regular [.cu] file whose name does not start with a dot is found in a
    subdirectory of the root whatever the name of that subdirectory,
    hidden ones included. *)
Theorem hidden_directories_are_scanned
    (w : World) (src_dir dir file : string) (n c : node)
    (es sub : list (string * node)) :
  resolve w (parse_path src_dir) = Some n →
  follow n = Dir es →
  In (dir, Dir sub) es →
  In (file, c) sub →
  is_file c = true →
  endswith ".cu" file = true →
  startswith "." file = false →
  In (str (descend (parse_path src_dir) [dir; file])) (root_sources w src_dir).
Proof.
  intros Hres Hn Hdir Hfile Hreg Hcu Hdot.
  apply root_sources_found. exists n, es, [dir; file], c.
  repeat split; auto.
  eapply reach_sub; [exact Hdir|]. constructor. exact Hfile.
Qed.

Lemma hidden_directories_are_scanned_witness :
  In "pkg/.cache/k.cu"
     (root_sources
        (world_of (Dir [("pkg", Dir [(".cache", Dir [("k.cu", File "")])])]))
        "pkg").
Proof.
  apply (hidden_directories_are_scanned
           (world_of (Dir [("pkg", Dir [(".cache", Dir [("k.cu", File "")])])]))
           "pkg" ".cache" "k.cu"
           (Dir [(".cache", Dir [("k.cu", File "")])]) (File "")
           [(".cache", Dir [("k.cu", File "")])] [("k.cu", File "")]);
    first [reflexivity | left; reflexivity].
Defined.

(* ===================================================================== *)
(** ** Further properties of the script as a whole *)
(* ===================================================================== *)

Lemma platform_override_on (w : World) (nq nf : list string) :
  platform_override w [qattn_ext; fused_ext] (state_with w nq nf)
  = if String.eqb (sys_platform w) "win32"
    then (Ok {[ "triton" := ["triton-windows>=3.3.1"] ]},
          state_with w (nq ++ windows_nvcc_args) (nf ++ windows_nvcc_args))
    else (Ok {[ "triton" := ["triton>=3.2.0"] ]}, state_with w nq nf).
Proof.
  unfold platform_override.
  destruct (String.eqb (sys_platform w) "win32"); [|reflexivity].
  cbn [for_each].
  rewrite run_bind, run_bind, extend_nvcc_qattn. cbv beta iota.
  rewrite run_bind, extend_nvcc_fused. cbv beta iota.
  reflexivity.
Qed.

(** X10. The override is not idempotent: run a second time on [win32], it
    appends the two arguments to each nvcc list once more. *)
Theorem platform_override_twice (w : World) :
  sys_platform w = "win32" →
  ∃ (extras : gmap string (list string)) (st1 st2 : state),
    platform_override w [qattn_ext; fused_ext] (built_state w) = (Ok extras, st1)
    ∧ platform_override w [qattn_ext; fused_ext] st1 = (Ok extras, st2)
    ∧ read_targets [qattn_ext; fused_ext] st2
      = (Ok [qattn_target w
               (qattn_nvcc w
                ++ ["-Xcompiler=/MD"; "-Xcompiler=/wd4819"]
                ++ ["-Xcompiler=/MD"; "-Xcompiler=/wd4819"]);
             fused_target w
               (fused_nvcc w
                ++ ["-Xcompiler=/MD"; "-Xcompiler=/wd4819"]
                ++ ["-Xcompiler=/MD"; "-Xcompiler=/wd4819"])],
         st2).
Proof.
  intros Hwin. unfold built_state.
  do 3 eexists. rewrite !platform_override_on, Hwin.
  cbn [String.eqb Ascii.eqb Bool.eqb andb].
  split; [reflexivity|]. split; [reflexivity|].
  rewrite read_targets_run, <- !app_assoc. reflexivity.
Qed.

Lemma platform_override_twice_witness :
  ∃ (extras : gmap string (list string)) (st1 st2 : state),
    platform_override (toolchain_world banner_12_0 kernel_tree "win32")
      [qattn_ext; fused_ext]
      (built_state (toolchain_world banner_12_0 kernel_tree "win32"))
    = (Ok extras, st1)
    ∧ platform_override (toolchain_world banner_12_0 kernel_tree "win32")
        [qattn_ext; fused_ext] st1
      = (Ok extras, st2)
    ∧ read_targets [qattn_ext; fused_ext] st2
      = (Ok [qattn_target (toolchain_world banner_12_0 kernel_tree "win32")
               (qattn_nvcc (toolchain_world banner_12_0 kernel_tree "win32")
                ++ ["-Xcompiler=/MD"; "-Xcompiler=/wd4819"]
                ++ ["-Xcompiler=/MD"; "-Xcompiler=/wd4819"]);
             fused_target (toolchain_world banner_12_0 kernel_tree "win32")
               (fused_nvcc (toolchain_world banner_12_0 kernel_tree "win32")
                ++ ["-Xcompiler=/MD"; "-Xcompiler=/wd4819"]
                ++ ["-Xcompiler=/MD"; "-Xcompiler=/wd4819"])],
         st2).
Proof.
  apply (platform_override_twice
           (toolchain_world banner_12_0 kernel_tree "win32")).
  reflexivity.
Defined.

(** X11. When validation fails nothing else happens: the script ends with the
    exception of the validation, no directory has been scanned, no
    object created and nothing printed. *)
Theorem failed_validation_ends_the_script {PKG : Packaging}
    (w : World) (e : exn) :
  validate_cuda_installation w init_state = (Raise e, init_state) →
  run_setup w = (Raise e, init_state).
Proof.
  intros He. unfold run_setup, setup_py. rewrite run_bind, He. reflexivity.
Qed.

Lemma failed_validation_ends_the_script_witness :
  run_setup (PKG := release_versions)
    (toolchain_world banner_10_1 kernel_tree "linux")
  = (Raise (RuntimeError "Requires CUDA 12.0+, found 10.1"), init_state).
Proof.
  apply (failed_validation_ends_the_script (PKG := release_versions)
           (toolchain_world banner_10_1 kernel_tree "linux")).
  reflexivity.
Defined.

(** X12. When validation passes and [README.md] is a file, [setup] is reached.
    It is handed the text of [README.md], the two targets with their
    sources and arguments (the nvcc arguments extended on [win32]) and
    the extras of the platform. By then every warning about an
    unsupported architecture has been printed twice, once for each
    target. *)
Theorem setup_is_reached {PKG : Packaging}
    (w : World) (n : node) (readme : string) :
  validate_cuda_installation w init_state = (Ok tt, init_state) →
  resolve w (parse_path "README.md") = Some n →
  follow n = File readme →
  ∃ st : state,
    run_setup w
    = (Ok (if String.eqb (sys_platform w) "win32"
           then {| long_description := readme;
                   extras_require := {[ "triton" := ["triton-windows>=3.3.1"] ]};
                   ext_modules :=
                     [qattn_target w (qattn_nvcc w ++ windows_nvcc_args);
                      fused_target w (fused_nvcc w ++ windows_nvcc_args)] |}
           else {| long_description := readme;
                   extras_require := {[ "triton" := ["triton>=3.2.0"] ]};
                   ext_modules :=
                     [qattn_target w (qattn_nvcc w);
                      fused_target w (fused_nvcc w)] |}),
       st)
    ∧ stdout st = arch_warnings w ++ arch_warnings w.
Proof.
  intros Hok Hres Hfile. unfold run_setup, setup_py.
  rewrite run_bind, Hok. cbv beta iota.
  rewrite run_bind, build_extensions_run. cbv beta iota.
  rewrite run_bind, platform_override_run. unfold built_state.
  assert (Hread : ∀ st, open_read w "README.md" st = (Ok readme, st)).
  { intros st. unfold open_read. rewrite Hres, Hfile. reflexivity. }
  destruct (String.eqb (sys_platform w) "win32"); cbv beta iota;
    rewrite run_bind, Hread; cbv beta iota;
    rewrite run_bind, read_targets_run; cbv beta iota;
    eexists; split; reflexivity.
Qed.

Lemma setup_is_reached_witness :
  ∃ st : state,
    run_setup (PKG := release_versions)
      (toolchain_world banner_12_0
         (Dir [("README.md", File "Sparse attention")]) "win32")
    = (Ok {| long_description := "Sparse attention";
             extras_require := {[ "triton" := ["triton-windows>=3.3.1"] ]};
             ext_modules :=
               [qattn_target
                  (toolchain_world banner_12_0
                     (Dir [("README.md", File "Sparse attention")]) "win32")
                  (qattn_nvcc
                     (toolchain_world banner_12_0
                        (Dir [("README.md", File "Sparse attention")]) "win32")
                   ++ windows_nvcc_args);
                fused_target
                  (toolchain_world banner_12_0
                     (Dir [("README.md", File "Sparse attention")]) "win32")
                  (fused_nvcc
                     (toolchain_world banner_12_0
                        (Dir [("README.md", File "Sparse attention")]) "win32")
                   ++ windows_nvcc_args)] |},
       st)
    ∧ stdout st
      = arch_warnings
          (toolchain_world banner_12_0
             (Dir [("README.md", File "Sparse attention")]) "win32")
        ++ arch_warnings
             (toolchain_world banner_12_0
                (Dir [("README.md", File "Sparse attention")]) "win32").
Proof.
  apply (setup_is_reached (PKG := release_versions)
           (toolchain_world banner_12_0
              (Dir [("README.md", File "Sparse attention")]) "win32")
           (File "Sparse attention") "Sparse attention");
    reflexivity.
Defined.

Lemma root_sources_missing (w : World) (src_dir : string) :
  path_exists w (parse_path src_dir) = false → root_sources w src_dir = [].
Proof.
  unfold path_exists, root_sources, rglob, node_exists. intros Hex.
  destruct (resolve w (parse_path src_dir)) as [n|]; [|reflexivity].
  destruct (follow n); try discriminate. reflexivity.
Qed.

(** X13. A source directory that is missing is not an error. When none of
    [csrc/qattn], its two instantiation directories and [csrc/fused]
    exists, the two targets are still assembled: [_qattn] with
    [csrc/qattn/pybind.cpp] as its only source, [_fused] with none. *)
Theorem missing_source_roots_go_unnoticed (w : World) :
  (∀ src_dir, In src_dir ("csrc/fused" :: qattn_roots) →
              path_exists w (parse_path src_dir) = false) →
  ∃ (tq tf : Target),
    build_extensions w init_state = (Ok [qattn_ext; fused_ext], built_state w)
    ∧ read_targets [qattn_ext; fused_ext] (built_state w)
      = (Ok [tq; tf], built_state w)
    ∧ target_sources tq = ["csrc/qattn/pybind.cpp"]
    ∧ target_sources tf = [].
Proof.
  intros Hmissing. do 2 eexists.
  split; [apply build_extensions_run|].
  split; [apply read_targets_run|].
  cbn [target_sources qattn_target fused_target].
  unfold qattn_sources, qattn_found, fused_sources, qattn_roots.
  cbn [map List.concat].
  rewrite !root_sources_missing by (apply Hmissing; cbn; tauto).
  split; reflexivity.
Qed.

Lemma missing_source_roots_go_unnoticed_witness :
  ∃ (tq tf : Target),
    build_extensions (world_of small_tree) init_state
    = (Ok [qattn_ext; fused_ext], built_state (world_of small_tree))
    ∧ read_targets [qattn_ext; fused_ext] (built_state (world_of small_tree))
      = (Ok [tq; tf], built_state (world_of small_tree))
    ∧ target_sources tq = ["csrc/qattn/pybind.cpp"]
    ∧ target_sources tf = [].
Proof.
  apply (missing_source_roots_go_unnoticed (world_of small_tree)).
  intros src_dir Hin. cbn in Hin.
  destruct Hin as [<-|[<-|[<-|[<-|[]]]]]; reflexivity.
Defined.

(* ===================================================================== *)
(** ** Further properties of [configure_for_windows] *)
(* ===================================================================== *)

(** X14. On Windows a missing [PATH] raises [KeyError] for [PATH], and a
    missing [CUDA_PATH] (with [PATH] set) raises [KeyError] for
    [CUDA_PATH]. In both cases [TRITON_CACHE_DIR] has been set by then
    and nothing else is changed: [PATH] is as it was. *)
Theorem configure_for_windows_missing_variable (env : gmap string string) :
  (env !! "PATH" = None →
   configure_for_windows "Windows" env
   = (Raise (KeyError "PATH"),
      <["TRITON_CACHE_DIR" :=
          default "%LOCALAPPDATA%" (env !! "LOCALAPPDATA") +:+ "\triton_cache"]>
        env))
  ∧ (is_Some (env !! "PATH") →
     env !! "CUDA_PATH" = None →
     configure_for_windows "Windows" env
     = (Raise (KeyError "CUDA_PATH"),
        <["TRITON_CACHE_DIR" :=
            default "%LOCALAPPDATA%" (env !! "LOCALAPPDATA") +:+ "\triton_cache"]>
          env)).
Proof.
  unfold configure_for_windows.
  cbn [String.eqb Ascii.eqb Bool.eqb andb]. unfold environ_get.
  rewrite !(lookup_insert_ne env "TRITON_CACHE_DIR") by discriminate.
  rewrite expandvars_triton. split.
  - intros ->. reflexivity.
  - intros [path ->] ->. reflexivity.
Qed.

Lemma configure_for_windows_missing_variable_witness :
  configure_for_windows "Windows" ∅
  = (Raise (KeyError "PATH"),
     <["TRITON_CACHE_DIR" :=
         default "%LOCALAPPDATA%" ((∅ : gmap string string) !! "LOCALAPPDATA")
         +:+ "\triton_cache"]> ∅)
  ∧ configure_for_windows "Windows" {[ "PATH" := "C:\Windows" ]}
    = (Raise (KeyError "CUDA_PATH"),
       <["TRITON_CACHE_DIR" :=
           default "%LOCALAPPDATA%"
             (({[ "PATH" := "C:\Windows" ]} : gmap string string)
                !! "LOCALAPPDATA")
           +:+ "\triton_cache"]> {[ "PATH" := "C:\Windows" ]}).
Proof.
  split.
  - apply (proj1 (configure_for_windows_missing_variable ∅)). reflexivity.
  - apply (proj2 (configure_for_windows_missing_variable
                    {[ "PATH" := "C:\Windows" ]})).
    + exists "C:\Windows". reflexivity.
    + reflexivity.
Defined.

Lemma configure_for_windows_run
    (env : gmap string string) (path cuda_path : string) :
  env !! "PATH" = Some path →
  env !! "CUDA_PATH" = Some cuda_path →
  configure_for_windows "Windows" env
  = (Ok tt,
     <["PATH" := path +:+ ";" +:+ cuda_path +:+ "\bin"]>
       (<["TRITON_CACHE_DIR" :=
           default "%LOCALAPPDATA%" (env !! "LOCALAPPDATA") +:+ "\triton_cache"]>
          env)).
Proof.
  intros Hpath Hcuda. unfold configure_for_windows.
  cbn [String.eqb Ascii.eqb Bool.eqb andb]. unfold environ_get.
  rewrite !(lookup_insert_ne env "TRITON_CACHE_DIR") by discriminate.
  rewrite Hpath, Hcuda, expandvars_triton. reflexivity.
Qed.

(** X15. [configure_for_windows] is not idempotent: called twice on Windows,
    it appends [;<CUDA_PATH>\bin] to [PATH] twice. [TRITON_CACHE_DIR] is
    the same after the second call as after the first. *)
Theorem configure_for_windows_twice
    (env : gmap string string) (path cuda_path : string) :
  env !! "PATH" = Some path →
  env !! "CUDA_PATH" = Some cuda_path →
  ∃ env1 env2 : gmap string string,
    configure_for_windows "Windows" env = (Ok tt, env1)
    ∧ configure_for_windows "Windows" env1 = (Ok tt, env2)
    ∧ env2 !! "PATH"
      = Some ((path +:+ ";" +:+ cuda_path +:+ "\bin")
              +:+ ";" +:+ cuda_path +:+ "\bin")
    ∧ env2 !! "TRITON_CACHE_DIR" = env1 !! "TRITON_CACHE_DIR".
Proof.
  intros Hpath Hcuda. do 2 eexists.
  split; [apply (configure_for_windows_run env path cuda_path Hpath Hcuda)|].
  split.
  - apply configure_for_windows_run.
    + apply lookup_insert_eq.
    + rewrite !lookup_insert_ne by discriminate. exact Hcuda.
  - split; [apply lookup_insert_eq|].
    rewrite !(lookup_insert_ne _ "PATH") by discriminate.
    rewrite !lookup_insert_eq.
    rewrite !(lookup_insert_ne _ _ "LOCALAPPDATA") by discriminate.
    reflexivity.
Qed.

Lemma configure_for_windows_twice_witness :
  ∃ env1 env2 : gmap string string,
    configure_for_windows "Windows" windows_environ = (Ok tt, env1)
    ∧ configure_for_windows "Windows" env1 = (Ok tt, env2)
    ∧ env2 !! "PATH"
      = Some (("C:\Windows" +:+ ";" +:+ "C:\CUDA\v12.0" +:+ "\bin")
              +:+ ";" +:+ "C:\CUDA\v12.0" +:+ "\bin")
    ∧ env2 !! "TRITON_CACHE_DIR" = env1 !! "TRITON_CACHE_DIR".
Proof.
  apply (configure_for_windows_twice windows_environ
           "C:\Windows" "C:\CUDA\v12.0"); reflexivity.
Defined.
